(** * PrimeNG Knob: geometry/value mapping and interaction controller

    Shallow embedding of [packages/primeng/src/knob/knob.ts].

    Modelling conventions.
    - A JavaScript [number] is modelled by a real number (type [R] of the
      standard library): arithmetic is exact, there is no NaN, no infinity
      and no signed zero.  [Math.PI] is [PI], [Math.cos]/[Math.sin] are
      [cos]/[sin]; [Math.round] and [Math.atan2] are defined below from
      their ECMAScript descriptions.
    - [null]/[undefined] are [None]; a field of type [number] that the code
      also tests against [null] is an [option R].
    - The component instance ([this]) is the record [Knob]; the host that
      the component acts upon (listeners registered on the window, calls of
      unlisten functions, and the other observable effects, in order) is
      kept next to it in the record [World].  Every method is a function
      [World -> World].
    - [radius], [midX], [midY], [minRadians], [maxRadians] are instance
      fields that are initialised once and never assigned again; they are
      constants here. *)

From Stdlib Require Import Reals Lra Lia List String Ascii ZArith Bool.
Import ListNotations.

Open Scope R_scope.

Module Knob.

(** ** JavaScript built-ins used by the component *)

(** [Math.round x]: the integer closest to [x], ties towards +infinity,
    that is [floor (x + 1/2)]. *)
Definition Math_round (x : R) : R := IZR (Int_part (x + / 2)).

(** [Math.atan2 y x] on real arguments (the zero arguments are read as +0,
    so that [atan2 0 0 = 0] and [atan2 0 x = PI] for negative [x]). *)
Definition Math_atan2 (y x : R) : R :=
  if Rlt_dec 0 x then atan (y / x)
  else if Rlt_dec x 0 then
    (if Rle_dec 0 y then atan (y / x) + PI else atan (y / x) - PI)
  else if Rlt_dec 0 y then PI / 2
  else if Rlt_dec y 0 then - (PI / 2)
  else 0.

(** [s.startsWith pat]. *)
Fixpoint startsWith (pat s : string) : bool :=
  match pat, s with
  | EmptyString, _ => true
  | String a p, String b t => Ascii.eqb a b && startsWith p t
  | String _ _, EmptyString => false
  end.

(** [s.substring n]: [s] without its first [n] characters. *)
Fixpoint skip (n : nat) (s : string) : string :=
  match n, s with
  | O, _ => s
  | S n', String _ t => skip n' t
  | S _, EmptyString => EmptyString
  end.

(** The abstract operation GetSubstitution of ECMAScript for a string
    pattern (no capture groups): [$$] is a dollar sign, [$&] the matched
    text, [$`] the text before the match, [$'] the text after it; every
    other character, also a dollar sign followed by anything else, stands
    for itself. *)
Fixpoint GetSubstitution (matched before after replacement : string) : string :=
  match replacement with
  | EmptyString => EmptyString
  | String c r =>
      if Ascii.eqb c "$" then
        match r with
        | EmptyString => String c EmptyString
        | String d r' =>
            if Ascii.eqb d "$" then
              String "$" (GetSubstitution matched before after r')
            else if Ascii.eqb d "&" then
              (matched ++ GetSubstitution matched before after r')%string
            else if Ascii.eqb d "`" then
              (before ++ GetSubstitution matched before after r')%string
            else if Ascii.eqb d "'" then
              (after ++ GetSubstitution matched before after r')%string
            else String c (GetSubstitution matched before after r)
        end
      else String c (GetSubstitution matched before after r)
  end.

(** [String.prototype.replace] with a string pattern: the leftmost
    occurrence of [pat] is replaced, the scan carrying the text already
    passed in [before]. *)
Fixpoint replace_from (before pat replacement s : string) : string :=
  if startsWith pat s then
    (GetSubstitution pat before (skip (String.length pat) s) replacement
       ++ skip (String.length pat) s)%string
  else
    match s with
    | EmptyString => EmptyString
    | String c t =>
        String c (replace_from (before ++ String c EmptyString) pat replacement t)
    end.

Definition replace (pat replacement s : string) : string :=
  replace_from EmptyString pat replacement s.

(** The string [pat] occurs nowhere in [s]. *)
Definition absent (pat s : string) : Prop :=
  forall a b : string, s <> (a ++ pat ++ b)%string.

(** The occurrence of [pat] that follows [pre] in [pre ++ pat ++ post] is
    the leftmost one. *)
Definition leftmost (pat pre post : string) : Prop :=
  forall a b : string,
    (pre ++ pat ++ post)%string = (a ++ pat ++ b)%string ->
    (String.length pre <= String.length a)%nat.

(** No dollar sign in a string. *)
Fixpoint dollar_free (s : string) : bool :=
  match s with
  | EmptyString => true
  | String c t => negb (Ascii.eqb c "$") && dollar_free t
  end.

(** ** The component instance *)

(** A [VoidListener] is [null]/[undefined] or the unlisten function that
    [renderer.listen] returned; the function is identified by the number of
    the registration it removes. *)
Definition VoidListener : Type := option nat.

Record Knob : Type := mkKnob {
  valueTemplate : string;
  size : R;
  min : R;
  max : R;
  step : R;
  readonly : bool;
  disabled : bool;
  value : option R;
  windowMouseMoveListener : VoidListener;
  windowMouseUpListener : VoidListener;
  windowTouchMoveListener : VoidListener;
  windowTouchEndListener : VoidListener
}.

Definition radius : R := 40.
Definition midX : R := 50.
Definition midY : R := 50.
Definition minRadians : R := (4 * PI) / 3.
Definition maxRadians : R := - PI / 3.

(** The field initialisers of the class. *)
Definition new_Knob : Knob :=
  {| valueTemplate := "{value}";
     size := 100;
     min := 0;
     max := 100;
     step := 1;
     readonly := false;
     disabled := false;
     value := Some 0;
     windowMouseMoveListener := None;
     windowMouseUpListener := None;
     windowTouchMoveListener := None;
     windowTouchEndListener := None |}.

Definition set_value (v : option R) (k : Knob) : Knob :=
  mkKnob (valueTemplate k) (size k) (min k) (max k) (step k) (readonly k)
    (disabled k) v (windowMouseMoveListener k) (windowMouseUpListener k)
    (windowTouchMoveListener k) (windowTouchEndListener k).

Definition set_windowMouseMoveListener (l : VoidListener) (k : Knob) : Knob :=
  mkKnob (valueTemplate k) (size k) (min k) (max k) (step k) (readonly k)
    (disabled k) (value k) l (windowMouseUpListener k)
    (windowTouchMoveListener k) (windowTouchEndListener k).

Definition set_windowMouseUpListener (l : VoidListener) (k : Knob) : Knob :=
  mkKnob (valueTemplate k) (size k) (min k) (max k) (step k) (readonly k)
    (disabled k) (value k) (windowMouseMoveListener k) l
    (windowTouchMoveListener k) (windowTouchEndListener k).

Definition set_windowTouchMoveListener (l : VoidListener) (k : Knob) : Knob :=
  mkKnob (valueTemplate k) (size k) (min k) (max k) (step k) (readonly k)
    (disabled k) (value k) (windowMouseMoveListener k)
    (windowMouseUpListener k) l (windowTouchEndListener k).

Definition set_windowTouchEndListener (l : VoidListener) (k : Knob) : Knob :=
  mkKnob (valueTemplate k) (size k) (min k) (max k) (step k) (readonly k)
    (disabled k) (value k) (windowMouseMoveListener k)
    (windowMouseUpListener k) (windowTouchMoveListener k) l.

(** Inputs bound by the host template ([<p-knob [min]=... [max]=... >]). *)
Definition with_range (lo hi st : R) (k : Knob) : Knob :=
  mkKnob (valueTemplate k) (size k) lo hi st (readonly k)
    (disabled k) (value k) (windowMouseMoveListener k)
    (windowMouseUpListener k) (windowTouchMoveListener k)
    (windowTouchEndListener k).

Definition with_valueTemplate (t : string) (k : Knob) : Knob :=
  mkKnob t (size k) (min k) (max k) (step k) (readonly k)
    (disabled k) (value k) (windowMouseMoveListener k)
    (windowMouseUpListener k) (windowTouchMoveListener k)
    (windowTouchEndListener k).

(** ** The host *)

Inductive EventName : Type := mousemove | mouseup | touchmove | touchend.

(** What the component does to its collaborators, in order of occurrence. *)
Inductive Effect : Type :=
| WriteModelValue (v : option R)   (* this.writeModelValue(v) *)
| OnModelChange (v : option R)     (* this.onModelChange(v)   *)
| OnChangeEmit (v : option R)      (* this.onChange.emit(v)   *)
| MarkForCheck                     (* this.cd.markForCheck()  *)
| PreventDefault.                  (* event.preventDefault()  *)

Record World : Type := mkWorld {
  knob : Knob;
  (* listeners currently registered on the window: registration number
     and event name *)
  windowListeners : list (nat * EventName);
  (* number that the next registration gets *)
  nextListener : nat;
  (* every call of an unlisten function, latest first *)
  unlistenCalls : list nat;
  trace : list Effect
}.

Definition new_World : World :=
  {| knob := new_Knob; windowListeners := []; nextListener := O;
     unlistenCalls := []; trace := [] |}.

Definition on_knob (f : Knob -> Knob) (w : World) : World :=
  mkWorld (f (knob w)) (windowListeners w) (nextListener w)
    (unlistenCalls w) (trace w).

Definition emit (e : Effect) (w : World) : World :=
  mkWorld (knob w) (windowListeners w) (nextListener w)
    (unlistenCalls w) (trace w ++ [e]).

(** [renderer.listen(window, ev, handler)]: a new registration (the handler
    is a fresh [bind], so no two registrations coincide); the result is the
    unlisten function of that registration. *)
Definition listen (ev : EventName) (w : World) : nat * World :=
  (nextListener w,
   mkWorld (knob w) ((nextListener w, ev) :: windowListeners w)
     (S (nextListener w)) (unlistenCalls w) (trace w)).

(** Calling an unlisten function removes its registration, and does nothing
    to the window when the registration is gone already. *)
Definition detach (h : nat) (ls : list (nat * EventName)) :
    list (nat * EventName) :=
  filter (fun l => negb (Nat.eqb (fst l) h)) ls.

Definition unlisten (h : nat) (w : World) : World :=
  mkWorld (knob w) (detach h (windowListeners w))
    (nextListener w) (h :: unlistenCalls w) (trace w).

(** [!this.disabled() && !this.readonly] *)
Definition enabled (k : Knob) : bool := negb (disabled k) && negb (readonly k).

(** ** Geometry *)

Definition mapRange (x inMin inMax outMin outMax : R) : R :=
  ((x - inMin) * (outMax - outMin)) / (inMax - inMin) + outMin.

(** [get _value()] *)
Definition _value (k : Knob) : R :=
  match value k with
  | Some v => v
  | None => min k
  end.

Definition zeroRadians (k : Knob) : R :=
  if Rgt_dec (min k) 0 then
    if Rgt_dec (max k) 0 then mapRange (min k) (min k) (max k) minRadians maxRadians
    else mapRange 0 (min k) (max k) minRadians maxRadians
  else mapRange 0 (min k) (max k) minRadians maxRadians.

Definition valueRadians (k : Knob) : R :=
  mapRange (_value k) (min k) (max k) minRadians maxRadians.

Definition valueX (k : Knob) : R := midX + cos (valueRadians k) * radius.
Definition valueY (k : Knob) : R := midY - sin (valueRadians k) * radius.

Definition largeArc (k : Knob) : nat :=
  if Rlt_dec (Rabs (zeroRadians k - valueRadians k)) PI then 0%nat else 1%nat.

Definition sweep (k : Knob) : nat :=
  if Rgt_dec (valueRadians k) (zeroRadians k) then 0%nat else 1%nat.

(** ** Value updates *)

(** The first three lines of [updateModel]: the value that the angle maps
    to, or nothing when the angle lies in neither segment of the dial. *)
Definition mappedValue (angle start : R) (k : Knob) : option R :=
  if Rgt_dec angle maxRadians then
    Some (mapRange angle minRadians maxRadians (min k) (max k))
  else if Rlt_dec angle start then
    Some (mapRange (angle + 2 * PI) minRadians maxRadians (min k) (max k))
  else None.

(** [Math.round((mappedValue - this.min) / this.step) * this.step + this.min] *)
Definition roundToStep (mapped : R) (k : Knob) : R :=
  Math_round ((mapped - min k) / step k) * step k + min k.

(** The three notifications that follow every assignment of [this.value]
    in [updateModel] and [updateModelValue]. *)
Definition notify (w : World) : World :=
  emit (OnChangeEmit (value (knob w)))
    (emit (OnModelChange (value (knob w)))
       (emit (WriteModelValue (value (knob w))) w)).

Definition updateModel (angle start : R) (w : World) : World :=
  match mappedValue angle start (knob w) with
  | None => w
  | Some mapped =>
      let newValue := roundToStep mapped (knob w) in
      notify (on_knob (set_value (Some newValue)) w)
  end.

Definition start_angle : R := - PI / 2 - PI / 6.

Definition updateValue (offsetX offsetY : R) (w : World) : World :=
  let dx := offsetX - size (knob w) / 2 in
  let dy := size (knob w) / 2 - offsetY in
  let angle := Math_atan2 dy dx in
  let start := start_angle in
  updateModel angle start w.

Definition onClick (offsetX offsetY : R) (w : World) : World :=
  if enabled (knob w) then updateValue offsetX offsetY w else w.

(** The value that [updateModelValue] stores. *)
Definition clamp (newValue : R) (k : Knob) : R :=
  if Rgt_dec newValue (max k) then max k
  else if Rlt_dec newValue (min k) then min k
  else newValue.

Definition updateModelValue (newValue : R) (w : World) : World :=
  notify (on_knob (set_value (Some (clamp newValue (knob w)))) w).

Definition onKeyDown (code : string) (w : World) : World :=
  if enabled (knob w) then
    if (String.eqb code "ArrowRight" || String.eqb code "ArrowUp")%bool then
      updateModelValue (_value (knob w) + 1) (emit PreventDefault w)
    else if (String.eqb code "ArrowLeft" || String.eqb code "ArrowDown")%bool then
      updateModelValue (_value (knob w) - 1) (emit PreventDefault w)
    else if String.eqb code "Home" then
      updateModelValue (min (knob w)) (emit PreventDefault w)
    else if String.eqb code "End" then
      updateModelValue (max (knob w)) (emit PreventDefault w)
    else if String.eqb code "PageUp" then
      updateModelValue (_value (knob w) + 10) (emit PreventDefault w)
    else if String.eqb code "PageDown" then
      updateModelValue (_value (knob w) - 10) (emit PreventDefault w)
    else w
  else w.

Definition writeValue (v : option R) (w : World) : World :=
  emit MarkForCheck
    (emit (WriteModelValue v) (on_knob (set_value v) w)).

(** [valueToDisplay], over the string form of numbers
    ([Number.prototype.toString]). *)
Definition valueToDisplay (toString : R -> string) (k : Knob) : string :=
  replace "{value}" (toString (_value k)) (valueTemplate k).

(** ** Pointer gestures *)

Definition onMouseMove (offsetX offsetY : R) (w : World) : World :=
  if enabled (knob w) then emit PreventDefault (updateValue offsetX offsetY w)
  else w.

Definition onMouseDown (w : World) : World :=
  if enabled (knob w) then
    let (move, w1) := listen mousemove w in
    let w2 := on_knob (set_windowMouseMoveListener (Some move)) w1 in
    let (up, w3) := listen mouseup w2 in
    let w4 := on_knob (set_windowMouseUpListener (Some up)) w3 in
    emit PreventDefault w4
  else w.

Definition onMouseUp (w : World) : World :=
  if enabled (knob w) then
    let w1 :=
      match windowMouseMoveListener (knob w) with
      | Some move => on_knob (set_windowMouseUpListener None) (unlisten move w)
      | None => w
      end in
    let w2 :=
      match windowMouseUpListener (knob w1) with
      | Some up => on_knob (set_windowMouseMoveListener None) (unlisten up w1)
      | None => w1
      end in
    emit PreventDefault w2
  else w.

Definition onTouchStart (w : World) : World :=
  if enabled (knob w) then
    let (move, w1) := listen touchmove w in
    let w2 := on_knob (set_windowTouchMoveListener (Some move)) w1 in
    let (stop, w3) := listen touchend w2 in
    let w4 := on_knob (set_windowTouchEndListener (Some stop)) w3 in
    emit PreventDefault w4
  else w.

Definition onTouchEnd (w : World) : World :=
  if enabled (knob w) then
    let w1 :=
      match windowTouchMoveListener (knob w) with
      | Some move => unlisten move w
      | None => w
      end in
    let w2 :=
      match windowTouchEndListener (knob w1) with
      | Some stop => unlisten stop w1
      | None => w1
      end in
    let w3 := on_knob (set_windowTouchMoveListener None) w2 in
    let w4 := on_knob (set_windowTouchEndListener None) w3 in
    emit PreventDefault w4
  else w.

(** Registrations of one event on the window. *)
Definition registered (ev : EventName) (w : World) : list nat :=
  map fst
    (filter (fun l => match snd l, ev with
                      | mousemove, mousemove | mouseup, mouseup
                      | touchmove, touchmove | touchend, touchend => true
                      | _, _ => false
                      end) (windowListeners w)).

(** How often the unlisten function [h] has been called. *)
Definition releases (h : nat) (w : World) : nat :=
  count_occ Nat.eq_dec (unlistenCalls w) h.

(** The two notifications of a change of value: the registered
    model-change callback and the [onChange] event. *)
Definition is_change_notification (e : Effect) : bool :=
  match e with
  | OnModelChange _ | OnChangeEmit _ => true
  | _ => false
  end.

(** The interval [[lo, hi]] cut out of the real line. *)
Definition clip (lo hi x : R) : R := Rmax lo (Rmin hi x).



(** ** The remaining members of the class *)

Definition minX : R := midX + cos minRadians * radius.
Definition minY : R := midY - sin minRadians * radius.
Definition maxX : R := midX + cos maxRadians * radius.
Definition maxY : R := midY - sin maxRadians * radius.
Definition zeroX (k : Knob) : R := midX + cos (zeroRadians k) * radius.
Definition zeroY (k : Knob) : R := midY - sin (zeroRadians k) * radius.

(** The string form of the numbers 0 and 1 that [largeArc] and [sweep]
    return. *)
Definition flag_toString (n : nat) : string :=
  match n with
  | O => "0"
  | S _ => "1"
  end.

(** The two template literals, over the string form of numbers. *)
Definition rangePath (toString : R -> string) : string :=
  ("M " ++ toString minX ++ " " ++ toString minY
   ++ " A " ++ toString radius ++ " " ++ toString radius
   ++ " 0 1 1 " ++ toString maxX ++ " " ++ toString maxY)%string.

Definition valuePath (toString : R -> string) (k : Knob) : string :=
  ("M " ++ toString (zeroX k) ++ " " ++ toString (zeroY k)
   ++ " A " ++ toString radius ++ " " ++ toString radius
   ++ " 0 " ++ flag_toString (largeArc k) ++ " " ++ flag_toString (sweep k)
   ++ " " ++ toString (valueX k) ++ " " ++ toString (valueY k))%string.

(** The value whose angle [zeroRadians] computes: [min] when [min] and
    [max] are both positive, [0] otherwise. *)
Definition zeroValue (k : Knob) : R :=
  if Rgt_dec (min k) 0 then
    if Rgt_dec (max k) 0 then min k else 0
  else 0.

(** A touch point, the bounding rectangle of the svg element, and the
    event that a touchmove listener receives: a [TouchEvent] with its
    lists [touches] and [targetTouches], or an event of another class. *)
Record Touch : Type := mkTouch { clientX : R; clientY : R }.

Record DOMRect : Type := mkDOMRect { rect_left : R; rect_top : R }.

Inductive DomEvent : Type :=
| TouchEvent (touches targetTouches : list Touch)
| OtherEvent.

Definition onTouchMove (rect : DOMRect) (event : DomEvent) (w : World) : World :=
  if enabled (knob w) then
    match event with
    | TouchEvent touches targetTouches =>
        if Nat.eqb (List.length touches) 1 then
          match targetTouches with
          | touch :: _ =>
              let offsetX := clientX touch - rect_left rect in
              let offsetY := clientY touch - rect_top rect in
              updateValue offsetX offsetY w
          | [] => w
          end
        else w
    | OtherEvent => w
    end
  else w.

(** ** Calls of the handlers *)

(** One call of a handler of the component, by the template, by a listener
    on the window or by the forms API. *)
Inductive Call : Type :=
| CallClick (offsetX offsetY : R)
| CallKeyDown (code : string)
| CallMouseDown
| CallMouseUp
| CallMouseMove (offsetX offsetY : R)
| CallTouchStart
| CallTouchEnd
| CallTouchMove (rect : DOMRect) (event : DomEvent)
| CallWriteValue (v : option R).

Definition call (c : Call) (w : World) : World :=
  match c with
  | CallClick x y => onClick x y w
  | CallKeyDown code => onKeyDown code w
  | CallMouseDown => onMouseDown w
  | CallMouseUp => onMouseUp w
  | CallMouseMove x y => onMouseMove x y w
  | CallTouchStart => onTouchStart w
  | CallTouchEnd => onTouchEnd w
  | CallTouchMove rect event => onTouchMove rect event w
  | CallWriteValue v => writeValue v w
  end.

(** The calls in the order in which they happen. *)
Definition run (cs : list Call) (w : World) : World :=
  fold_left (fun w' c => call c w') cs w.

(** The calls that come from the user's input, not from the forms API. *)
Definition is_input (c : Call) : bool :=
  match c with
  | CallWriteValue _ => false
  | _ => true
  end.

Definition mousedowns (cs : list Call) : nat :=
  List.length (filter (fun c => match c with CallMouseDown => true | _ => false end) cs).

(** The inputs of the component that no method assigns. *)
Definition configuration (k : Knob) : string * (R * R * R * R) * (bool * bool) :=
  (valueTemplate k, (size k, min k, max k, step k), (readonly k, disabled k)).

(** The key codes that [onKeyDown] has a case for. *)
Definition handled_key (code : string) : bool :=
  (String.eqb code "ArrowRight" || String.eqb code "ArrowUp"
   || String.eqb code "ArrowLeft" || String.eqb code "ArrowDown"
   || String.eqb code "Home" || String.eqb code "End"
   || String.eqb code "PageUp" || String.eqb code "PageDown")%bool.

(** The [onChange] events of a trace, in order. *)
Definition onChange_events (tr : list Effect) : list Effect :=
  filter (fun e => match e with OnChangeEmit _ => true | _ => false end) tr.

(** The value that the latest [onChange] event of a trace carries. *)
Fixpoint last_emitted (tr : list Effect) : option (option R) :=
  match tr with
  | [] => None
  | e :: tr' =>
      match last_emitted tr' with
      | Some v => Some v
      | None =>
          match e with
          | OnChangeEmit v => Some v
          | _ => None
          end
      end
  end.

(** The inputs [readonly] and [disabled] bound by the host template. *)
Definition with_flags (ro dis : bool) (k : Knob) : Knob :=
  mkKnob (valueTemplate k) (size k) (min k) (max k) (step k) ro dis
    (value k) (windowMouseMoveListener k) (windowMouseUpListener k)
    (windowTouchMoveListener k) (windowTouchEndListener k).

(** Registrations of one event in a list of listeners. *)
Definition same_event (a b : EventName) : bool :=
  match a, b with
  | mousemove, mousemove | mouseup, mouseup
  | touchmove, touchmove | touchend, touchend => true
  | _, _ => false
  end.

Definition registrations (ev : EventName) (ls : list (nat * EventName)) :
    list nat :=
  map fst (filter (fun l => same_event (snd l) ev) ls).

(** A world [w'] that holds the value of [w] and whose trace has the
    [onChange] events of the trace of [w], no more. *)
Definition quiet (w w' : World) : Prop :=
  value (knob w') = value (knob w)
  /\ onChange_events (trace w') = onChange_events (trace w)
  /\ last_emitted (trace w') = last_emitted (trace w).

(** The part of a world that the listeners and their handles make up. *)
Definition listener_state (w : World) :
    list (nat * EventName) * nat * list nat
    * (VoidListener * VoidListener * VoidListener * VoidListener) :=
  (windowListeners w, nextListener w, unlistenCalls w,
   (windowMouseMoveListener (knob w), windowMouseUpListener (knob w),
    windowTouchMoveListener (knob w), windowTouchEndListener (knob w))).

(** A handle that is set is the number of a registration made before. *)
Definition below (l : VoidListener) (n : nat) : Prop :=
  match l with
  | Some h => (h < n)%nat
  | None => True
  end.

(** A handle that is set is none of the numbers [ids]. *)
Definition apart (l : VoidListener) (ids : list nat) : Prop :=
  match l with
  | Some h => ~ In h ids
  | None => True
  end.

(** What holds of the listeners and the handles of a control after every
    sequence of calls: registrations and handles are older than the next
    registration, the handle of the mouseup listener is never held without
    the handle of the mousemove listener, and the handles that [onMouseUp]
    and [onTouchEnd] do call are no mouseup registrations. *)
Definition listeners_inv (w : World) : Prop :=
  Forall (fun l => (fst l < nextListener w)%nat) (windowListeners w)
  /\ below (windowMouseMoveListener (knob w)) (nextListener w)
  /\ below (windowMouseUpListener (knob w)) (nextListener w)
  /\ below (windowTouchMoveListener (knob w)) (nextListener w)
  /\ below (windowTouchEndListener (knob w)) (nextListener w)
  /\ (windowMouseMoveListener (knob w) = None ->
      windowMouseUpListener (knob w) = None)
  /\ apart (windowMouseMoveListener (knob w)) (registered mouseup w)
  /\ apart (windowTouchMoveListener (knob w)) (registered mouseup w)
  /\ apart (windowTouchEndListener (knob w)) (registered mouseup w).

(** Every registration on the window is older than the next one. *)
Definition fresh (w : World) : Prop :=
  Forall (fun l => (fst l < nextListener w)%nat) (windowListeners w).

(** Comparisons between the constant angles of the dial: linear
    arithmetic once [PI] is known to be positive. *)
Ltac angles :=
  unfold start_angle, maxRadians, minRadians in *;
  pose proof PI_RGT_0; lra.

(** * Pointer gestures: listener lifetime *)

Lemma enabled_true (k : Knob) :
  enabled k = true <-> disabled k = false /\ readonly k = false.
Proof.
  unfold enabled.
  destruct (disabled k), (readonly k); simpl; split; intros H;
    try discriminate; try (destruct H; discriminate); auto.
Qed.

Lemma detach_fresh (h : nat) (ls : list (nat * EventName)) :
  Forall (fun l => (fst l < h)%nat) ls -> detach h ls = ls.
Proof.
  unfold detach. induction 1 as [|l ls Hl _ IH]; simpl.
  - reflexivity.
  - destruct (Nat.eqb_spec (fst l) h) as [E|_]; simpl.
    + lia.
    + now rewrite IH.
Qed.

Lemma detach_same (h : nat) (ev : EventName) (ls : list (nat * EventName)) :
  detach h ((h, ev) :: ls) = detach h ls.
Proof.
  unfold detach. simpl. now rewrite Nat.eqb_refl.
Qed.

Lemma detach_other (h g : nat) (ev : EventName) (ls : list (nat * EventName)) :
  g <> h -> detach h ((g, ev) :: ls) = (g, ev) :: detach h ls.
Proof.
  intros N. unfold detach. simpl.
  destruct (Nat.eqb_spec g h) as [E|_]; [contradiction | reflexivity].
Qed.

Lemma fresh_weaken (n m : nat) (ls : list (nat * EventName)) :
  (n <= m)%nat ->
  Forall (fun l => (fst l < n)%nat) ls ->
  Forall (fun l => (fst l < m)%nat) ls.
Proof.
  intros Hnm H. eapply Forall_impl; [|exact H].
  simpl. intros l Hl. lia.
Qed.

(** What a mousedown does on an enabled control, whatever the handles
    hold. *)
Lemma onMouseDown_enabled (w : World) :
  enabled (knob w) = true ->
  onMouseDown w =
  mkWorld
    (set_windowMouseUpListener (Some (S (nextListener w)))
       (set_windowMouseMoveListener (Some (nextListener w)) (knob w)))
    ((S (nextListener w), mouseup) :: (nextListener w, mousemove)
       :: windowListeners w)
    (S (S (nextListener w))) (unlistenCalls w) (trace w ++ [PreventDefault]).
Proof.
  intros He. unfold onMouseDown. rewrite He. reflexivity.
Qed.

Lemma onMouseDown_disabled (w : World) :
  enabled (knob w) = false -> onMouseDown w = w.
Proof.
  intros He. unfold onMouseDown. now rewrite He.
Qed.

Lemma onTouchStart_enabled (w : World) :
  enabled (knob w) = true ->
  onTouchStart w =
  mkWorld
    (set_windowTouchEndListener (Some (S (nextListener w)))
       (set_windowTouchMoveListener (Some (nextListener w)) (knob w)))
    ((S (nextListener w), touchend) :: (nextListener w, touchmove)
       :: windowListeners w)
    (S (S (nextListener w))) (unlistenCalls w) (trace w ++ [PreventDefault]).
Proof.
  intros He. unfold onTouchStart. rewrite He. reflexivity.
Qed.

(** The touch pair is released in full by [onTouchEnd]: the window is left
    as it was before the gesture and both handles are cleared. *)
Lemma touch_gesture_releases_both (w : World) :
  enabled (knob w) = true ->
  fresh w ->
  let w' := onTouchEnd (onTouchStart w) in
  windowListeners w' = windowListeners w
  /\ windowTouchMoveListener (knob w') = None
  /\ windowTouchEndListener (knob w') = None.
Proof.
  intros He Hf. cbv zeta. rewrite (onTouchStart_enabled w He).
  unfold onTouchEnd, enabled in *. cbn -[detach]. rewrite He.
  cbn -[detach]. repeat split.
  rewrite (detach_other (nextListener w) (S (nextListener w))) by lia.
  rewrite detach_same, detach_same.
  rewrite (detach_fresh (nextListener w)) by exact Hf.
  apply detach_fresh.
  apply (fresh_weaken (nextListener w)); [lia | exact Hf].
Qed.

(** The mouse pair is not: whatever the state of an enabled control, the
    mouseup registration made by [onMouseDown] survives [onMouseUp], and the
    handle of the mousemove registration is kept. *)
Lemma mouse_gesture_keeps_mouseup (w : World) :
  enabled (knob w) = true ->
  let w' := onMouseUp (onMouseDown w) in
  In (S (nextListener w), mouseup) (windowListeners w')
  /\ windowMouseMoveListener (knob w') = Some (nextListener w)
  /\ windowMouseUpListener (knob w') = None.
Proof.
  intros He. cbv zeta. rewrite (onMouseDown_enabled w He).
  unfold onMouseUp, enabled in *. cbn -[detach]. rewrite He.
  cbn -[detach]. repeat split.
  rewrite (detach_other (nextListener w) (S (nextListener w))) by lia.
  left. reflexivity.
Qed.

(** C1 (the code at the failing input).  A new control, one mousedown, then
    mouseup twice.  After the mousedown two listeners are registered, one
    for mousemove and one for mouseup.  After the first mouseup the mouseup
    listener is still registered and was never released, while the handle of
    the mousemove listener is still held; the second mouseup therefore calls
    the unlisten function of the mousemove listener a second time. *)
Theorem mouse_gesture_lifecycle_at_new_control :
  let w1 := onMouseDown new_World in
  let w2 := onMouseUp w1 in
  let w3 := onMouseUp w2 in
  windowListeners w1 = [(1%nat, mouseup); (0%nat, mousemove)]
  /\ registered mousemove w1 = [0%nat]
  /\ registered mouseup w1 = [1%nat]
  /\ windowListeners w2 = [(1%nat, mouseup)]
  /\ registered mousemove w2 = []
  /\ registered mouseup w2 = [1%nat]
  /\ windowMouseMoveListener (knob w2) = Some 0%nat
  /\ windowMouseUpListener (knob w2) = None
  /\ releases 1 w2 = 0%nat
  /\ releases 0 w2 = 1%nat
  /\ releases 0 w3 = 2%nat
  /\ windowListeners w3 = [(1%nat, mouseup)].
Proof.
  cbv zeta. repeat split.
Qed.

(** C2, refuted as stated: on a new control (enabled), the first mousedown
    opens a mouse gesture; a second mousedown is not ignored, it leaves four
    listeners on the window and other handles in both fields. *)
Lemma second_mousedown_not_ignored :
  let w1 := onMouseDown new_World in
  let w2 := onMouseDown w1 in
  enabled (knob w1) = true
  /\ windowMouseMoveListener (knob w1) = Some 0%nat
  /\ windowMouseUpListener (knob w1) = Some 1%nat
  /\ List.length (windowListeners w1) = 2%nat
  /\ List.length (windowListeners w2) = 4%nat
  /\ windowMouseMoveListener (knob w2) <> windowMouseMoveListener (knob w1)
  /\ windowMouseUpListener (knob w2) <> windowMouseUpListener (knob w1).
Proof.
  cbv zeta. repeat split; simpl; discriminate.
Qed.

(** C2, amended: on a control that is neither disabled nor read-only every
    mousedown, also one that arrives while a mouse gesture is active,
    registers a new mousemove and a new mouseup listener on top of the
    listeners already there and stores the two new handles in place of the
    former ones. *)
Theorem mousedown_registers_again (w : World)
    (He : enabled (knob w) = true) :
  let w' := onMouseDown w in
  windowListeners w' =
    (S (nextListener w), mouseup) :: (nextListener w, mousemove)
      :: windowListeners w
  /\ windowMouseMoveListener (knob w') = Some (nextListener w)
  /\ windowMouseUpListener (knob w') = Some (S (nextListener w))
  /\ List.length (windowListeners w') = S (S (List.length (windowListeners w))).
Proof.
  cbv zeta. rewrite (onMouseDown_enabled w He). simpl. repeat split.
Qed.

Lemma mousedown_registers_again_witness :
  let w := onMouseDown new_World in
  enabled (knob w) = true
  /\ windowListeners (onMouseDown w) =
       [(3%nat, mouseup); (2%nat, mousemove); (1%nat, mouseup); (0%nat, mousemove)].
Proof.
  cbv zeta. split.
  - reflexivity.
  - exact (proj1 (mousedown_registers_again (onMouseDown new_World) eq_refl)).
Defined.

(** * External writes *)

(** C9: [writeValue] stores the value it is given, hands it to
    [writeModelValue] and asks for a check of the view, and nothing else:
    no model-change callback and no [onChange] event is added to the
    effects, and the listeners on the window, the four handles and the
    configuration are as before. *)
Theorem writeValue_stores_without_notification (v : option R) (w : World) :
  let w' := writeValue v w in
  value (knob w') = v
  /\ trace w' = trace w ++ [WriteModelValue v; MarkForCheck]
  /\ filter is_change_notification (trace w') =
     filter is_change_notification (trace w)
  /\ knob w' = set_value v (knob w)
  /\ windowListeners w' = windowListeners w
  /\ nextListener w' = nextListener w
  /\ unlistenCalls w' = unlistenCalls w
  /\ windowMouseMoveListener (knob w') = windowMouseMoveListener (knob w)
  /\ windowMouseUpListener (knob w') = windowMouseUpListener (knob w)
  /\ windowTouchMoveListener (knob w') = windowTouchMoveListener (knob w)
  /\ windowTouchEndListener (knob w') = windowTouchEndListener (knob w)
  /\ (min (knob w'), max (knob w'), step (knob w'), size (knob w')) =
     (min (knob w), max (knob w), step (knob w), size (knob w))
  /\ (readonly (knob w'), disabled (knob w'), valueTemplate (knob w')) =
     (readonly (knob w), disabled (knob w), valueTemplate (knob w)).
Proof.
  cbv zeta. unfold writeValue, emit, on_knob. simpl.
  repeat split.
  - now rewrite <- app_assoc.
  - rewrite <- app_assoc, filter_app. simpl. now rewrite app_nil_r.
Qed.

(** * The effective value *)

(** C8, refuted as stated: a control created with [min = 5] and never
    given a value holds the value [0]; its effective value is [0], not
    [min]. *)
Lemma initial_value_is_not_min :
  let k := with_range 5 100 1 new_Knob in
  value k = Some 0 /\ _value k = 0 /\ _value k <> min k.
Proof.
  cbv zeta. simpl. repeat split. unfold _value. simpl. lra.
Qed.

(** C8, amended: when the stored value is [null] or [undefined] the
    effective value is [min]; the value that the control is created with is
    the number [0], whatever [min] is. *)
Theorem effective_value_when_unset (k : Knob) (H : value k = None) :
  _value k = min k
  /\ (forall lo hi st : R,
        value (with_range lo hi st new_Knob) = Some 0
        /\ _value (with_range lo hi st new_Knob) = 0).
Proof.
  split.
  - unfold _value. now rewrite H.
  - intros lo hi st. split; reflexivity.
Qed.

Lemma effective_value_when_unset_witness :
  let k := set_value None (with_range 5 100 1 new_Knob) in
  value k = None /\ _value k = 5.
Proof.
  cbv zeta. split.
  - reflexivity.
  - exact (proj1 (effective_value_when_unset
                    (set_value None (with_range 5 100 1 new_Knob)) eq_refl)).
Defined.

(** * Keyboard *)

Lemma clamp_clip (x : R) (k : Knob) :
  min k <= max k -> clamp x k = clip (min k) (max k) x.
Proof.
  intros Hr. unfold clamp, clip, Rmax, Rmin.
  destruct (Rgt_dec x (max k)) as [G|G].
  - destruct (Rle_dec (max k) x) as [_|N]; [|lra].
    destruct (Rle_dec (min k) (max k)); lra.
  - destruct (Rle_dec (max k) x) as [L|_].
    + assert (x = max k) as -> by lra.
      destruct (Rlt_dec (max k) (min k)); [lra|].
      destruct (Rle_dec (min k) (max k)); lra.
    + destruct (Rlt_dec x (min k)) as [L|L];
        destruct (Rle_dec (min k) x); lra.
Qed.

Lemma clamp_in_range (x : R) (k : Knob) :
  min k <= max k -> min k <= clamp x k <= max k.
Proof.
  intros Hr. unfold clamp.
  destruct (Rgt_dec x (max k)); [lra|].
  destruct (Rlt_dec x (min k)); lra.
Qed.

Lemma updateModelValue_value (x : R) (w : World) :
  value (knob (updateModelValue x w)) = Some (clamp x (knob w)).
Proof. reflexivity. Qed.

(** The keyboard path keeps the value within the range. *)
Lemma updateModelValue_in_range (x : R) (w : World) :
  min (knob w) <= max (knob w) ->
  exists v, value (knob (updateModelValue x w)) = Some v
            /\ min (knob (updateModelValue x w)) <= v
               <= max (knob (updateModelValue x w)).
Proof.
  intros Hr. exists (clamp x (knob w)). split; [reflexivity|].
  simpl. now apply clamp_in_range.
Qed.

(** C6: on a control that is neither disabled nor read-only (and whose
    range is not empty), ArrowUp from [min] gives [min + 1], or [max] when
    [min + 1] exceeds it; Home gives [min] and End gives [max] from every
    value; PageDown from [min] stays at [min]; PageUp gives the value plus
    ten and PageDown the value minus ten, cut to the range. *)
Theorem keyboard_steps (w : World)
    (He : enabled (knob w) = true)
    (Hr : min (knob w) <= max (knob w)) :
  let k := knob w in
  (_value k = min k ->
     value (knob (onKeyDown "ArrowUp" w)) =
       Some (if Rgt_dec (min k + 1) (max k) then max k else min k + 1))
  /\ value (knob (onKeyDown "Home" w)) = Some (min k)
  /\ value (knob (onKeyDown "End" w)) = Some (max k)
  /\ (_value k = min k -> value (knob (onKeyDown "PageDown" w)) = Some (min k))
  /\ value (knob (onKeyDown "PageUp" w)) =
       Some (clip (min k) (max k) (_value k + 10))
  /\ value (knob (onKeyDown "PageDown" w)) =
       Some (clip (min k) (max k) (_value k - 10)).
Proof.
  cbv zeta. unfold onKeyDown. rewrite He. simpl.
  repeat split.
  - intros ->. f_equal. unfold clamp.
    destruct (Rgt_dec (min (knob w) + 1) (max (knob w))); [reflexivity|].
    destruct (Rlt_dec (min (knob w) + 1) (min (knob w))); [lra | reflexivity].
  - f_equal. unfold clamp.
    destruct (Rgt_dec (min (knob w)) (max (knob w))); [lra|].
    destruct (Rlt_dec (min (knob w)) (min (knob w))); [lra | reflexivity].
  - f_equal. unfold clamp.
    destruct (Rgt_dec (max (knob w)) (max (knob w))); [lra|].
    destruct (Rlt_dec (max (knob w)) (min (knob w))); [lra | reflexivity].
  - intros ->. f_equal. unfold clamp.
    destruct (Rgt_dec (min (knob w) - 10) (max (knob w))); [lra|].
    destruct (Rlt_dec (min (knob w) - 10) (min (knob w))); [reflexivity | lra].
  - f_equal. now apply clamp_clip.
  - f_equal. now apply clamp_clip.
Qed.

Lemma keyboard_steps_witness :
  enabled (knob new_World) = true
  /\ min (knob new_World) <= max (knob new_World)
  /\ value (knob (onKeyDown "Home" new_World)) = Some 0
  /\ value (knob (onKeyDown "End" new_World)) = Some 100.
Proof.
  assert (Hr : min (knob new_World) <= max (knob new_World)) by (simpl; lra).
  split; [reflexivity|]. split; [exact Hr|].
  split.
  - exact (proj1 (proj2 (keyboard_steps new_World eq_refl Hr))).
  - exact (proj1 (proj2 (proj2 (keyboard_steps new_World eq_refl Hr)))).
Defined.

(** * Angles *)

Lemma Math_round_near (z : Z) (x : R) :
  IZR z - / 2 <= x < IZR z + / 2 -> Math_round x = IZR z.
Proof.
  intros [Hlo Hhi]. unfold Math_round. f_equal. symmetry.
  apply Int_part_spec. lra.
Qed.

Lemma Math_round_IZR (z : Z) : Math_round (IZR z) = IZR z.
Proof. apply Math_round_near. lra. Qed.

(** [Math.round] moves a number by at most one half. *)
Lemma Math_round_error (x : R) : x - / 2 < Math_round x <= x + / 2.
Proof.
  unfold Math_round.
  destruct (base_Int_part (x + / 2)) as [Hle Hgt]. lra.
Qed.

Lemma Math_atan2_origin : Math_atan2 0 0 = 0.
Proof.
  unfold Math_atan2.
  destruct (Rlt_dec 0 0) as [H|_]; [lra | reflexivity].
Qed.

Lemma Math_atan2_east (x : R) : 0 < x -> Math_atan2 0 x = 0.
Proof.
  intros Hx. unfold Math_atan2.
  destruct (Rlt_dec 0 x) as [_|N]; [|contradiction].
  replace (0 / x) with 0 by (field; lra). apply atan_0.
Qed.

Lemma Math_atan2_south (y : R) : y < 0 -> Math_atan2 y 0 = - (PI / 2).
Proof.
  intros Hy. unfold Math_atan2.
  destruct (Rlt_dec 0 0) as [H|_]; [lra|].
  destruct (Rlt_dec 0 y) as [H|_]; [lra|].
  destruct (Rlt_dec y 0) as [_|N]; [reflexivity | contradiction].
Qed.

(** The linear map of the upper segment, with the factor [PI] cancelled. *)
Lemma mapRange_radians (q lo hi : R) :
  mapRange (q * PI) minRadians maxRadians lo hi =
  (4 / 3 - q) * (hi - lo) * (3 / 5) + lo.
Proof.
  unfold mapRange, minRadians, maxRadians.
  pose proof PI_RGT_0 as HPI. field. lra.
Qed.

Lemma mappedValue_upper (angle start : R) (k : Knob) :
  angle > maxRadians ->
  mappedValue angle start k =
  Some (mapRange angle minRadians maxRadians (min k) (max k)).
Proof.
  intros H. unfold mappedValue.
  destruct (Rgt_dec angle maxRadians); [reflexivity | contradiction].
Qed.


Lemma mappedValue_gap (angle start : R) (k : Knob) :
  start <= angle <= maxRadians -> mappedValue angle start k = None.
Proof.
  intros [H1 H2]. unfold mappedValue.
  destruct (Rgt_dec angle maxRadians); [lra|].
  destruct (Rlt_dec angle start); [lra | reflexivity].
Qed.

(** C5: an angle strictly between [start] and [maxRadians] (the dead gap)
    maps to no value, and [updateModel] leaves everything as it is: the
    stored value, and the effects, so that no notification is emitted. *)
Theorem dead_gap_is_ignored (angle : R) (w : World)
    (Hgap : start_angle < angle < maxRadians) :
  mappedValue angle start_angle (knob w) = None
  /\ updateModel angle start_angle w = w
  /\ value (knob (updateModel angle start_angle w)) = value (knob w)
  /\ trace (updateModel angle start_angle w) = trace w.
Proof.
  assert (Hn : mappedValue angle start_angle (knob w) = None)
    by (apply mappedValue_gap; lra).
  assert (Hw : updateModel angle start_angle w = w)
    by (unfold updateModel; now rewrite Hn).
  rewrite Hw. auto.
Qed.

Lemma dead_gap_is_ignored_witness :
  start_angle < - (PI / 2) < maxRadians
  /\ updateModel (- (PI / 2)) start_angle new_World = new_World.
Proof.
  assert (H : start_angle < - (PI / 2) < maxRadians).
  { angles. }
  split; [exact H|].
  exact (proj1 (proj2 (dead_gap_is_ignored (- (PI / 2)) new_World H))).
Defined.

(** A click straight below the centre of a new control is such a click. *)
Lemma click_in_dead_gap : onClick 50 90 new_World = new_World.
Proof.
  unfold onClick. simpl. unfold updateValue. simpl.
  replace (50 - 100 / 2) with 0 by lra.
  rewrite Math_atan2_south by lra.
  unfold updateModel. rewrite mappedValue_gap; [reflexivity|].
  angles.
Qed.

(** C7: with [min = 0], [max = 100], [step = 1] and [size = 100], a click on
    the centre (50, 50) has the angle [atan2 0 0 = 0]; [0] lies above
    [maxRadians], the upper segment maps it to
    [mapRange 0 (4 PI / 3) (- PI / 3) 0 100 = 80], and [80] is stored. *)
Theorem click_on_centre (w : World)
    (He : enabled (knob w) = true)
    (Hmin : min (knob w) = 0) (Hmax : max (knob w) = 100)
    (Hstep : step (knob w) = 1) (Hsize : size (knob w) = 100) :
  Math_atan2 (size (knob w) / 2 - 50) (50 - size (knob w) / 2) = 0
  /\ 0 > maxRadians
  /\ mappedValue 0 start_angle (knob w) =
       Some (mapRange 0 minRadians maxRadians 0 100)
  /\ mapRange 0 minRadians maxRadians 0 100 = 80
  /\ value (knob (onClick 50 50 w)) = Some 80.
Proof.
  assert (Hangle : Math_atan2 (size (knob w) / 2 - 50)
                     (50 - size (knob w) / 2) = 0).
  { rewrite Hsize. replace (100 / 2 - 50) with 0 by lra.
    replace (50 - 100 / 2) with 0 by lra. apply Math_atan2_origin. }
  assert (Hup : 0 > maxRadians).
  { angles. }
  assert (Hmap : mapRange 0 minRadians maxRadians 0 100 = 80).
  { replace 0 with (0 * PI) at 1 by lra. rewrite mapRange_radians. lra. }
  assert (Hmv : mappedValue 0 start_angle (knob w) =
                Some (mapRange 0 minRadians maxRadians 0 100)).
  { rewrite (mappedValue_upper 0 start_angle (knob w) Hup).
    now rewrite Hmin, Hmax. }
  repeat split; trivial.
  unfold onClick. rewrite He. unfold updateValue. rewrite Hangle.
  unfold updateModel. rewrite Hmv, Hmap. simpl.
  unfold roundToStep. rewrite Hmin, Hstep.
  replace ((80 - 0) / 1) with 80 by lra.
  rewrite (Math_round_IZR 80). f_equal. lra.
Qed.

Lemma click_on_centre_witness :
  value (knob (onClick 50 50 new_World)) = Some 80.
Proof.
  exact (proj2 (proj2 (proj2 (proj2
    (click_on_centre new_World eq_refl eq_refl eq_refl eq_refl eq_refl))))).
Defined.

(** * The displayed text *)

Lemma GetSubstitution_dollar_free (matched before after r : string) :
  dollar_free r = true -> GetSubstitution matched before after r = r.
Proof.
  induction r as [|c r IH]; simpl; intros H.
  - reflexivity.
  - apply andb_prop in H. destruct H as [Hc Hr].
    destruct (Ascii.eqb c "$"); [discriminate|].
    now rewrite IH.
Qed.

Lemma startsWith_app (pat b : string) : startsWith pat (pat ++ b) = true.
Proof.
  induction pat as [|c pat IH]; simpl.
  - reflexivity.
  - now rewrite Ascii.eqb_refl, IH.
Qed.

Lemma startsWith_inv (pat s : string) :
  startsWith pat s = true -> exists b, s = (pat ++ b)%string.
Proof.
  revert s. induction pat as [|c pat IH]; intros s H.
  - exists s. reflexivity.
  - destruct s as [|d s]; simpl in H; [discriminate|].
    apply andb_prop in H. destruct H as [Hc Hs].
    apply Ascii.eqb_eq in Hc. subst d.
    destruct (IH s Hs) as [b ->]. exists b. reflexivity.
Qed.

Lemma skip_app (pat b : string) : skip (String.length pat) (pat ++ b) = b.
Proof.
  induction pat as [|c pat IH]; simpl; auto.
Qed.

Lemma leftmost_tail (pat post : string) (c : ascii) (pre : string) :
  leftmost pat (String c pre) post -> leftmost pat pre post.
Proof.
  intros H a b E.
  specialize (H (String c a) b). simpl in H.
  rewrite E in H. specialize (H eq_refl). lia.
Qed.

Lemma leftmost_head (pat post : string) (c : ascii) (pre : string) :
  leftmost pat (String c pre) post ->
  startsWith pat (String c pre ++ pat ++ post) = false.
Proof.
  intros H.
  destruct (startsWith pat (String c pre ++ pat ++ post)) eqn:E; [|reflexivity].
  apply startsWith_inv in E. destruct E as [b E].
  specialize (H EmptyString b E). simpl in H. lia.
Qed.

Lemma replace_from_eq (before pat repl s : string) :
  replace_from before pat repl s =
  if startsWith pat s then
    (GetSubstitution pat before (skip (String.length pat) s) repl
       ++ skip (String.length pat) s)%string
  else
    match s with
    | EmptyString => EmptyString
    | String c t =>
        String c (replace_from (before ++ String c EmptyString) pat repl t)
    end.
Proof. destruct s; reflexivity. Qed.

(** Only the leftmost occurrence of the pattern is replaced. *)
Lemma replace_from_leftmost (pat repl post : string) :
  dollar_free repl = true ->
  forall pre before : string,
    leftmost pat pre post ->
    replace_from before pat repl (pre ++ pat ++ post) =
    (pre ++ repl ++ post)%string.
Proof.
  intros Hd. induction pre as [|c pre IH]; intros before Hl.
  - simpl (EmptyString ++ _)%string.
    rewrite replace_from_eq, startsWith_app, skip_app.
    now rewrite GetSubstitution_dollar_free.
  - pose proof (leftmost_head _ _ _ _ Hl) as Hh.
    simpl. simpl in Hh. rewrite Hh.
    f_equal. apply IH. eapply leftmost_tail. exact Hl.
Qed.

(** A string without the pattern is returned as it is. *)
Lemma replace_from_absent (pat repl : string) :
  forall s before : string,
    absent pat s -> replace_from before pat repl s = s.
Proof.
  induction s as [|c s IH]; intros before Ha.
  - simpl. destruct (startsWith pat EmptyString) eqn:E; [|reflexivity].
    apply startsWith_inv in E. destruct E as [b E].
    exfalso. apply (Ha EmptyString b). exact E.
  - simpl. destruct (startsWith pat (String c s)) eqn:E.
    + apply startsWith_inv in E. destruct E as [b E].
      exfalso. apply (Ha EmptyString b). exact E.
    + f_equal. apply IH. intros a b E'.
      apply (Ha (String c a) b). simpl. now rewrite E'.
Qed.

(** C10: [valueToDisplay] replaces the leftmost occurrence of the token
    [{value}] of the template by the string form of the effective value and
    keeps the text after it, later occurrences of the token included, as it
    is; a template without the token is returned unchanged.  (The string
    form of a number holds no dollar sign.) *)
Theorem valueToDisplay_replaces_first (toString : R -> string) (k : Knob)
    (Hts : forall x : R, dollar_free (toString x) = true) :
  (forall pre post : string,
     valueTemplate k = (pre ++ "{value}" ++ post)%string ->
     leftmost "{value}" pre post ->
     valueToDisplay toString k = (pre ++ toString (_value k) ++ post)%string)
  /\ (forall pre mid post : string,
        valueTemplate k =
          (pre ++ "{value}" ++ mid ++ "{value}" ++ post)%string ->
        leftmost "{value}" pre (mid ++ "{value}" ++ post) ->
        valueToDisplay toString k =
          (pre ++ toString (_value k) ++ mid ++ "{value}" ++ post)%string)
  /\ (absent "{value}" (valueTemplate k) ->
      valueToDisplay toString k = valueTemplate k).
Proof.
  unfold valueToDisplay, replace. repeat split.
  - intros pre post -> Hl. now apply replace_from_leftmost.
  - intros pre mid post -> Hl.
    now apply (replace_from_leftmost "{value}" _ (mid ++ "{value}" ++ post)).
  - intros Ha. now apply replace_from_absent.
Qed.

Lemma valueToDisplay_replaces_first_witness :
  let k := with_valueTemplate "Val: {value} of {value}"
             (set_value (Some 42) new_Knob) in
  valueToDisplay (fun _ => "42"%string) k = "Val: 42 of {value}"%string.
Proof.
  cbv zeta.
  assert (Hl : leftmost "{value}" "Val: " (" of " ++ "{value}" ++ "")).
  { intros a b H.
    do 5 (destruct a as [|? a];
          [simpl in H; discriminate H | simpl in H; injection H as _ H]).
    simpl. lia. }
  exact (proj1 (proj2
    (valueToDisplay_replaces_first (fun _ => "42"%string)
       (with_valueTemplate "Val: {value} of {value}"
          (set_value (Some 42) new_Knob))
       (fun _ => eq_refl)))
    "Val: "%string " of "%string ""%string eq_refl Hl).
Defined.

(** The scenario of the documentation, by evaluation. *)
Lemma valueToDisplay_example :
  valueToDisplay (fun _ => "42"%string)
    (with_valueTemplate "Val: {value}" (set_value (Some 42) new_Knob)) =
  "Val: 42"%string.
Proof. reflexivity. Qed.

(** * From a value to a point of the circle and back *)


Lemma Math_atan2_upper_left (y x : R) :
  x < 0 -> 0 <= y -> Math_atan2 y x = atan (y / x) + PI.
Proof.
  intros Hx Hy. unfold Math_atan2.
  destruct (Rlt_dec 0 x); [lra|].
  destruct (Rlt_dec x 0); [|contradiction].
  destruct (Rle_dec 0 y); [reflexivity | contradiction].
Qed.


Lemma Math_atan2_north (y : R) : 0 < y -> Math_atan2 y 0 = PI / 2.
Proof.
  intros Hy. unfold Math_atan2.
  destruct (Rlt_dec 0 0) as [H|_]; [lra|].
  destruct (Rlt_dec 0 y); [reflexivity | contradiction].
Qed.






Section ProperRange.

(** A control whose range is not degenerate. *)
Variable k : Knob.
Hypothesis Hrange : min k < max k.

(** The angle of a value, with the factor [PI] brought out. *)
Lemma valueRadians_fraction (v : R) :
  valueRadians (set_value (Some v) k) =
  (4 / 3 - 5 / 3 * ((v - min k) / (max k - min k))) * PI.
Proof.
  unfold valueRadians, _value, mapRange, minRadians, maxRadians.
  simpl. field. lra.
Qed.



(** An angle in the range of [Math.atan2] maps to a value strictly inside
    the range of the dial, when it maps to a value at all. *)
Lemma mappedValue_within (angle m : R) :
  - PI < angle <= PI ->
  mappedValue angle start_angle k = Some m ->
  min k < m < max k.
Proof.
  intros [Hlo Hhi] Hm. pose proof PI_RGT_0 as HPI.
  set (q := angle / PI).
  assert (Hq : angle = q * PI) by (unfold q; field; lra).
  assert (Hq1 : -1 < q) by (apply Rmult_lt_reg_r with PI; lra).
  assert (Hq2 : q <= 1) by (apply Rmult_le_reg_r with PI; lra).
  unfold mappedValue in Hm.
  destruct (Rgt_dec angle maxRadians) as [Hup|Hup].
  - injection Hm as <-. rewrite Hq, mapRange_radians.
    unfold maxRadians in Hup.
    assert (-1 / 3 < q) by (apply Rmult_lt_reg_r with PI; lra).
    nra.
  - destruct (Rlt_dec angle start_angle) as [Hdn|Hdn]; [|discriminate].
    injection Hm as <-.
    replace (angle + 2 * PI) with ((q + 2) * PI) by lra.
    rewrite mapRange_radians.
    unfold start_angle in Hdn.
    assert (q < -2 / 3) by (apply Rmult_lt_reg_r with PI; lra).
    nra.
Qed.

End ProperRange.

(** * The range of the value on the pointer path *)

(** [Math.atan2] ranges over the angles from [- PI] (excluded) to [PI]. *)
Lemma Math_atan2_range (y x : R) : - PI < Math_atan2 y x <= PI.
Proof.
  pose proof PI_RGT_0 as HPI.
  pose proof (atan_bound (y / x)) as [Hlo Hhi].
  unfold Math_atan2.
  destruct (Rlt_dec 0 x) as [Hx|Hx]; [lra|].
  destruct (Rlt_dec x 0) as [Hx'|Hx'].
  - destruct (Rle_dec 0 y) as [Hy|Hy].
    + assert (atan (y / x) <= 0); [|lra].
      destruct Hy as [Hy|Hy].
      * left. rewrite <- atan_0. apply atan_increasing.
        apply Ropp_lt_cancel. rewrite Ropp_0, <- Rdiv_opp_r.
        apply Rdiv_lt_0_compat; lra.
      * subst y. right. replace (0 / x) with 0 by (field; lra).
        apply atan_0.
    + assert (0 < atan (y / x)); [|lra].
      rewrite <- atan_0. apply atan_increasing.
      replace (y / x) with (- y / - x) by (field; lra).
      apply Rdiv_lt_0_compat; lra.
  - destruct (Rlt_dec 0 y); [lra|].
    destruct (Rlt_dec y 0); lra.
Qed.

Lemma Math_round_nonneg (x : R) : 0 <= x -> 0 <= Math_round x.
Proof.
  intros Hx. pose proof (Math_round_error x) as [Hlo _].
  unfold Math_round in *.
  apply IZR_le.
  assert (H : (-1 < Int_part (x + / 2))%Z) by (apply lt_IZR; lra).
  lia.
Qed.

(** C3 (the code at the failing input): with [min = 0], [max = 19] and
    [step = 10], a click at (90, 50) on a control of size 100 has the
    angle 0, which maps to 15.2; rounding to the step grid stores 20, a
    value above [max]. *)
Theorem click_can_exceed_max :
  let w := on_knob (with_range 0 19 10) new_World in
  let w' := onClick 90 50 w in
  min (knob w) < max (knob w)
  /\ 0 < step (knob w)
  /\ value (knob w') = Some 20
  /\ max (knob w') = 19
  /\ 20 > max (knob w').
Proof.
  cbv zeta.
  assert (Hw' : onClick 90 50 (on_knob (with_range 0 19 10) new_World) =
                notify (on_knob (set_value (Some 20))
                          (on_knob (with_range 0 19 10) new_World))).
  { unfold onClick. simpl. unfold updateValue. simpl.
    replace (100 / 2 - 50) with 0 by lra.
    replace (90 - 100 / 2) with 40 by lra.
    rewrite Math_atan2_east by lra.
    unfold updateModel.
    rewrite mappedValue_upper by angles.
    simpl. do 3 f_equal. unfold roundToStep. simpl.
    replace 0 with (0 * PI) at 1 by lra. rewrite mapRange_radians.
    rewrite (Math_round_near 2); [f_equal; lra | lra]. }
  rewrite Hw'. simpl. repeat split; lra.
Qed.

(** * Sequences of handler calls *)

Lemma run_snoc (cs : list Call) (c : Call) (w : World) :
  run (cs ++ [c]) w = call c (run cs w).
Proof.
  unfold run. now rewrite fold_left_app.
Qed.

Lemma updateValue_frame (x y : R) (w : World) :
  configuration (knob (updateValue x y w)) = configuration (knob w)
  /\ windowListeners (updateValue x y w) = windowListeners w
  /\ nextListener (updateValue x y w) = nextListener w
  /\ unlistenCalls (updateValue x y w) = unlistenCalls w
  /\ windowMouseMoveListener (knob (updateValue x y w)) =
     windowMouseMoveListener (knob w)
  /\ windowMouseUpListener (knob (updateValue x y w)) =
     windowMouseUpListener (knob w)
  /\ windowTouchMoveListener (knob (updateValue x y w)) =
     windowTouchMoveListener (knob w)
  /\ windowTouchEndListener (knob (updateValue x y w)) =
     windowTouchEndListener (knob w).
Proof.
  unfold updateValue, updateModel.
  destruct (mappedValue _ start_angle (knob w)); repeat split.
Qed.

Lemma call_configuration (c : Call) (w : World) :
  configuration (knob (call c w)) = configuration (knob w).
Proof.
  destruct c as [x y|code| | |x y| | |rect event|v]; simpl.
  - unfold onClick. destruct (enabled (knob w)); [|reflexivity].
    apply updateValue_frame.
  - unfold onKeyDown.
    repeat match goal with
           | |- context [if ?b then _ else _] => destruct b
           end; reflexivity.
  - unfold onMouseDown. destruct (enabled (knob w)); reflexivity.
  - unfold onMouseUp. destruct (enabled (knob w)); [|reflexivity].
    destruct (windowMouseMoveListener (knob w));
      destruct (windowMouseUpListener (knob w)); reflexivity.
  - unfold onMouseMove. destruct (enabled (knob w)); [|reflexivity].
    apply (updateValue_frame x y w).
  - unfold onTouchStart. destruct (enabled (knob w)); reflexivity.
  - unfold onTouchEnd. destruct (enabled (knob w)); [|reflexivity].
    destruct (windowTouchMoveListener (knob w)); cbn;
      destruct (windowTouchEndListener (knob w)); reflexivity.
  - unfold onTouchMove. destruct (enabled (knob w)); [|reflexivity].
    destruct event as [touches [|touch rest]|]; try reflexivity.
    + destruct (Nat.eqb (List.length touches) 1); reflexivity.
    + destruct (Nat.eqb (List.length touches) 1); [|reflexivity].
      apply updateValue_frame.
  - reflexivity.
Qed.

(** X1: no call of a handler, and so no sequence of calls, changes the
    inputs of the component: the template, [size], [min], [max], [step],
    [readonly] and [disabled] are after the calls what they were before. *)
Theorem configuration_is_never_assigned (cs : list Call) (w : World) :
  configuration (knob (run cs w)) = configuration (knob w).
Proof.
  induction cs as [|c cs IH] using rev_ind.
  - reflexivity.
  - rewrite run_snoc, call_configuration. exact IH.
Qed.

Lemma call_disabled (c : Call) (w : World) :
  enabled (knob w) = false -> is_input c = true -> call c w = w.
Proof.
  intros Hd Hc.
  destruct c; simpl in *; try discriminate;
    unfold onClick, onKeyDown, onMouseDown, onMouseUp, onMouseMove,
      onTouchStart, onTouchEnd, onTouchMove;
    now rewrite Hd.
Qed.

(** X2: a control that is disabled or read-only ignores the input: after
    any sequence of calls of the click, key, mouse and touch handlers
    nothing has changed, neither the value nor the listeners nor the
    effects. *)
Theorem disabled_control_ignores_input (cs : list Call) (w : World)
    (Hd : enabled (knob w) = false)
    (Hin : forallb is_input cs = true) :
  run cs w = w.
Proof.
  revert w Hd. induction cs as [|c cs IH]; intros w Hd.
  - reflexivity.
  - simpl in Hin. apply andb_prop in Hin. destruct Hin as [Hc Hcs].
    unfold run. simpl. rewrite (call_disabled c w Hd Hc).
    now apply IH.
Qed.

Lemma disabled_control_ignores_input_witness :
  let w := on_knob (with_flags true false) new_World in
  run [CallMouseDown; CallMouseMove 50 10; CallKeyDown "End"; CallMouseUp] w
  = w.
Proof.
  cbv zeta.
  exact (disabled_control_ignores_input
           [CallMouseDown; CallMouseMove 50 10; CallKeyDown "End"; CallMouseUp]
           (on_knob (with_flags true false) new_World) eq_refl eq_refl).
Defined.

(** X3: between [onTouchStart] and [onTouchEnd] the window holds one
    touchmove and one touchend listener more; [onTouchEnd] calls the
    unlisten function of each of the two once, clears both handles and
    leaves the window as it was before the gesture; a second [onTouchEnd]
    calls no unlisten function. *)
Theorem touch_gesture_lifecycle (w : World)
    (He : enabled (knob w) = true)
    (Hf : fresh w) :
  let w1 := onTouchStart w in
  let w2 := onTouchEnd w1 in
  let w3 := onTouchEnd w2 in
  windowListeners w1 =
    (S (nextListener w), touchend) :: (nextListener w, touchmove)
      :: windowListeners w
  /\ windowListeners w2 = windowListeners w
  /\ unlistenCalls w2 = S (nextListener w) :: nextListener w :: unlistenCalls w
  /\ windowTouchMoveListener (knob w2) = None
  /\ windowTouchEndListener (knob w2) = None
  /\ windowListeners w3 = windowListeners w
  /\ unlistenCalls w3 = unlistenCalls w2.
Proof.
  cbv zeta. rewrite (onTouchStart_enabled w He).
  unfold onTouchEnd, enabled in *. cbn -[detach].
  repeat (rewrite He; cbn -[detach]).
  assert (Hback :
    detach (S (nextListener w))
      (detach (nextListener w)
         ((S (nextListener w), touchend) :: (nextListener w, touchmove)
            :: windowListeners w)) = windowListeners w).
  { rewrite (detach_other (nextListener w) (S (nextListener w))) by lia.
    rewrite detach_same, detach_same.
    rewrite (detach_fresh (nextListener w)) by exact Hf.
    apply detach_fresh.
    apply (fresh_weaken (nextListener w)); [lia | exact Hf]. }
  rewrite Hback. repeat split.
Qed.

Lemma touch_gesture_lifecycle_witness :
  enabled (knob new_World) = true
  /\ fresh new_World
  /\ windowListeners (onTouchEnd (onTouchStart new_World)) = [].
Proof.
  assert (Hf : fresh new_World) by constructor.
  split; [reflexivity|]. split; [exact Hf|].
  exact (proj1 (proj2 (touch_gesture_lifecycle new_World eq_refl Hf))).
Defined.

(** * The listeners over sequences of calls *)

Lemma registered_eq (ev : EventName) (w : World) :
  registered ev w = registrations ev (windowListeners w).
Proof. reflexivity. Qed.

Lemma registrations_below (ev : EventName) (n h : nat)
    (ls : list (nat * EventName)) :
  Forall (fun l => (fst l < n)%nat) ls ->
  In h (registrations ev ls) -> (h < n)%nat.
Proof.
  unfold registrations. intros Hf Hin.
  apply in_map_iff in Hin. destruct Hin as [l [<- Hl]].
  apply filter_In in Hl. destruct Hl as [Hl _].
  rewrite Forall_forall in Hf. now apply Hf.
Qed.

Lemma registrations_detach (ev : EventName) (h : nat)
    (ls : list (nat * EventName)) :
  ~ In h (registrations ev ls) ->
  registrations ev (detach h ls) = registrations ev ls.
Proof.
  unfold registrations, detach.
  induction ls as [|[id e] ls IH]; simpl; intros Hn.
  - reflexivity.
  - destruct (Nat.eqb_spec id h) as [E|N]; simpl.
    + subst id. destruct (same_event e ev) eqn:Ee; simpl in *.
      * exfalso. apply Hn. now left.
      * now apply IH.
    + destruct (same_event e ev); simpl in *.
      * f_equal. apply IH. tauto.
      * now apply IH.
Qed.

Lemma detach_below (h n : nat) (ls : list (nat * EventName)) :
  Forall (fun l => (fst l < n)%nat) ls ->
  Forall (fun l => (fst l < n)%nat) (detach h ls).
Proof.
  unfold detach. rewrite !Forall_forall. intros Hf l Hl.
  apply filter_In in Hl. now apply Hf.
Qed.

Lemma below_weaken (l : VoidListener) (n m : nat) :
  (n <= m)%nat -> below l n -> below l m.
Proof.
  destruct l as [h|]; simpl; [lia | trivial].
Qed.

(** The invariant reads the listeners and the handles only. *)
Lemma listeners_inv_state (w w' : World) :
  listener_state w' = listener_state w ->
  listeners_inv w -> listeners_inv w'.
Proof.
  unfold listener_state, listeners_inv. rewrite !registered_eq.
  intros E. injection E as -> -> _ -> -> -> ->. trivial.
Qed.

Lemma registered_state (ev : EventName) (w w' : World) :
  listener_state w' = listener_state w ->
  registered ev w' = registered ev w.
Proof.
  unfold listener_state. rewrite !registered_eq.
  intros E. injection E as -> _ _ _ _ _ _. reflexivity.
Qed.

(** The handlers that update the value leave the listeners alone. *)
Lemma updateValue_listener_state (x y : R) (w : World) :
  listener_state (updateValue x y w) = listener_state w.
Proof.
  unfold updateValue, updateModel.
  destruct (mappedValue _ start_angle (knob w)); reflexivity.
Qed.

Lemma value_call_listener_state (c : Call) (w : World) :
  match c with
  | CallMouseDown | CallMouseUp | CallTouchStart | CallTouchEnd => True
  | _ => listener_state (call c w) = listener_state w
  end.
Proof.
  destruct c as [x y|code| | |x y| | |rect event|v]; simpl; trivial.
  - unfold onClick. destruct (enabled (knob w)); [|reflexivity].
    apply updateValue_listener_state.
  - unfold onKeyDown.
    repeat match goal with
           | |- context [if ?b then _ else _] => destruct b
           end; reflexivity.
  - unfold onMouseMove. destruct (enabled (knob w)); [|reflexivity].
    apply (updateValue_listener_state x y w).
  - unfold onTouchMove. destruct (enabled (knob w)); [|reflexivity].
    destruct event as [touches [|touch rest]|]; try reflexivity.
    + destruct (Nat.eqb (List.length touches) 1); reflexivity.
    + destruct (Nat.eqb (List.length touches) 1); [|reflexivity].
      apply updateValue_listener_state.
Qed.

Lemma onMouseDown_inv (w : World) :
  enabled (knob w) = true ->
  listeners_inv w ->
  listeners_inv (onMouseDown w)
  /\ registered mouseup (onMouseDown w) =
     S (nextListener w) :: registered mouseup w.
Proof.
  intros He Hi. rewrite (onMouseDown_enabled w He).
  unfold listeners_inv in *. rewrite !registered_eq in *. cbn.
  destruct Hi as (Hf & Hm & Hu & Htm & Hte & Himp & Am & Atm & Ate).
  fold (registrations mouseup (windowListeners w)).
  assert (Hold : forall h, In h (registrations mouseup (windowListeners w)) ->
                           (h < nextListener w)%nat).
  { intros h. now apply registrations_below. }
  repeat split.
  - constructor; [simpl; lia|]. constructor; [simpl; lia|].
    apply (fresh_weaken (nextListener w)); [lia | exact Hf].
  - lia.
  - lia.
  - apply (below_weaken _ (nextListener w)); [lia | exact Htm].
  - apply (below_weaken _ (nextListener w)); [lia | exact Hte].
  - discriminate.
  - intros [E|Hin]; [lia|]. apply Hold in Hin. lia.
  - destruct (windowTouchMoveListener (knob w)) as [h|]; simpl in *; trivial.
    intros [E|Hin]; [lia | contradiction].
  - destruct (windowTouchEndListener (knob w)) as [h|]; simpl in *; trivial.
    intros [E|Hin]; [lia | contradiction].
Qed.

Lemma onTouchStart_inv (w : World) :
  enabled (knob w) = true ->
  listeners_inv w ->
  listeners_inv (onTouchStart w)
  /\ registered mouseup (onTouchStart w) = registered mouseup w.
Proof.
  intros He Hi. rewrite (onTouchStart_enabled w He).
  unfold listeners_inv in *. rewrite !registered_eq in *. cbn.
  destruct Hi as (Hf & Hm & Hu & Htm & Hte & Himp & Am & Atm & Ate).
  fold (registrations mouseup (windowListeners w)).
  assert (Hold : forall h, In h (registrations mouseup (windowListeners w)) ->
                           (h < nextListener w)%nat).
  { intros h. now apply registrations_below. }
  repeat split; trivial.
  - constructor; [simpl; lia|]. constructor; [simpl; lia|].
    apply (fresh_weaken (nextListener w)); [lia | exact Hf].
  - apply (below_weaken _ (nextListener w)); [lia | exact Hm].
  - apply (below_weaken _ (nextListener w)); [lia | exact Hu].
  - lia.
  - lia.
  - intros Hin. apply Hold in Hin. lia.
  - intros Hin. apply Hold in Hin. lia.
Qed.

Lemma unlisten_inv (h : nat) (w : World) :
  listeners_inv w ->
  ~ In h (registered mouseup w) ->
  listeners_inv (unlisten h w)
  /\ registered mouseup (unlisten h w) = registered mouseup w.
Proof.
  intros Hi Hn.
  assert (Hreg : registered mouseup (unlisten h w) = registered mouseup w).
  { rewrite !registered_eq in *. simpl. now apply registrations_detach. }
  split; [|exact Hreg].
  unfold listeners_inv in *. rewrite Hreg.
  destruct Hi as (Hf & Hm & Hu & Htm & Hte & Himp & Am & Atm & Ate).
  simpl. repeat split; trivial.
  now apply detach_below.
Qed.

Lemma onMouseUp_inv (w : World) :
  listeners_inv w ->
  listeners_inv (onMouseUp w)
  /\ registered mouseup (onMouseUp w) = registered mouseup w.
Proof.
  intros Hi. unfold onMouseUp.
  destruct (enabled (knob w)); [|now split].
  destruct (windowMouseMoveListener (knob w)) as [h|] eqn:Em.
  - cbn.
    assert (Hn : ~ In h (registered mouseup w)).
    { destruct Hi as (_ & _ & _ & _ & _ & _ & Am & _). now rewrite Em in Am. }
    destruct (unlisten_inv h w Hi Hn) as [Hi' Hreg].
    split; [|exact Hreg].
    unfold listeners_inv in *.
    change (registered mouseup
              (emit PreventDefault
                 (on_knob (set_windowMouseUpListener None) (unlisten h w))))
      with (registered mouseup (unlisten h w)).
    destruct Hi' as (Hf & Hm & Hu & Htm & Hte & Himp & Am & Atm & Ate).
    simpl in *. repeat split; trivial.
  - assert (Eu : windowMouseUpListener (knob w) = None).
    { destruct Hi as (_ & _ & _ & _ & _ & Himp & _). now apply Himp. }
    rewrite Eu. split; [|reflexivity].
    apply (listeners_inv_state w); [reflexivity | exact Hi].
Qed.

Lemma onTouchEnd_inv (w : World) :
  listeners_inv w ->
  listeners_inv (onTouchEnd w)
  /\ registered mouseup (onTouchEnd w) = registered mouseup w.
Proof.
  intros Hi. unfold onTouchEnd.
  destruct (enabled (knob w)); [|now split].
  set (w1 := match windowTouchMoveListener (knob w) with
             | Some move => unlisten move w
             | None => w
             end).
  assert (H1 : (listeners_inv w1
                /\ registered mouseup w1 = registered mouseup w)
               /\ windowTouchEndListener (knob w1) =
                  windowTouchEndListener (knob w)).
  { unfold w1. destruct (windowTouchMoveListener (knob w)) as [h|] eqn:Em.
    - split; [|reflexivity]. apply unlisten_inv; [exact Hi|].
      destruct Hi as (_ & _ & _ & _ & _ & _ & _ & Atm & _).
      now rewrite Em in Atm.
    - split; [split; [exact Hi | reflexivity] | reflexivity]. }
  destruct H1 as [[Hi1 Hreg1] Ete].
  set (w2 := match windowTouchEndListener (knob w1) with
             | Some stop => unlisten stop w1
             | None => w1
             end).
  assert (H2 : listeners_inv w2
               /\ registered mouseup w2 = registered mouseup w).
  { unfold w2. rewrite Ete.
    destruct (windowTouchEndListener (knob w)) as [h|] eqn:Ee.
    - rewrite <- Hreg1. apply unlisten_inv; [exact Hi1|].
      rewrite Hreg1.
      destruct Hi as (_ & _ & _ & _ & _ & _ & _ & _ & Ate).
      now rewrite Ee in Ate.
    - now split. }
  destruct H2 as [Hi2 Hreg2].
  split; [|exact Hreg2].
  unfold listeners_inv in *.
  change (registered mouseup
            (emit PreventDefault
               (on_knob (set_windowTouchEndListener None)
                  (on_knob (set_windowTouchMoveListener None) w2))))
    with (registered mouseup w2).
  destruct Hi2 as (Hf & Hm & Hu & Htm & Hte & Himp & Am & Atm & Ate).
  simpl in *. repeat split; trivial.
Qed.

Lemma call_inv (c : Call) (w : World) :
  listeners_inv w ->
  listeners_inv (call c w)
  /\ registered mouseup (call c w) =
     (match c with
      | CallMouseDown =>
          if enabled (knob w) then [S (nextListener w)] else []
      | _ => []
      end) ++ registered mouseup w.
Proof.
  intros Hi.
  pose proof (value_call_listener_state c w) as Hs.
  destruct c as [x y|code| | |x y| | |rect event|v];
    try (split; [exact (listeners_inv_state _ _ Hs Hi)
                | exact (registered_state _ _ _ Hs)]).
  - simpl. destruct (enabled (knob w)) eqn:He.
    + now apply onMouseDown_inv.
    + rewrite (onMouseDown_disabled w He). now split.
  - now apply onMouseUp_inv.
  - simpl. destruct (enabled (knob w)) eqn:He.
    + now apply onTouchStart_inv.
    + unfold onTouchStart. rewrite He. now split.
  - now apply onTouchEnd_inv.
Qed.

Lemma run_enabled (cs : list Call) (w : World) :
  enabled (knob (run cs w)) = enabled (knob w).
Proof.
  induction cs as [|c cs IH] using rev_ind; [reflexivity|].
  rewrite run_snoc, <- IH.
  pose proof (call_configuration c (run cs w)) as H.
  unfold configuration in H. injection H as _ _ _ _ _ Hr Hd.
  unfold enabled. now rewrite Hr, Hd.
Qed.

Lemma mousedowns_snoc (cs : list Call) (c : Call) :
  mousedowns (cs ++ [c]) =
  (mousedowns cs + match c with CallMouseDown => 1 | _ => 0 end)%nat.
Proof.
  unfold mousedowns. rewrite filter_app, length_app.
  destruct c; reflexivity.
Qed.

Lemma new_World_inv : listeners_inv new_World.
Proof.
  unfold listeners_inv. simpl. repeat split; trivial.
Qed.

(** X4: the invariant of the listeners holds after every sequence of
    calls, and under it no mouseup listener is ever removed from the
    window: on a control that is neither disabled nor read-only the number
    of registered mouseup listeners grows by one with every [onMouseDown]
    and never shrinks, whatever calls of [onMouseUp], [onTouchEnd] or of
    the other handlers come in between. *)
Theorem mouseup_listeners_accumulate (cs : list Call) (w : World)
    (Hi : listeners_inv w)
    (He : enabled (knob w) = true) :
  listeners_inv (run cs w)
  /\ List.length (registered mouseup (run cs w)) =
     (mousedowns cs + List.length (registered mouseup w))%nat
  /\ (forall h : nat,
        In h (registered mouseup w) -> In h (registered mouseup (run cs w))).
Proof.
  induction cs as [|c cs IH] using rev_ind.
  - split; [exact Hi|]. split; [reflexivity | trivial].
  - destruct IH as (Hi' & Hlen & Hin).
    rewrite run_snoc.
    destruct (call_inv c (run cs w) Hi') as [Hi'' Hreg].
    rewrite Hreg, run_enabled, He.
    split; [exact Hi''|]. split.
    + rewrite length_app, Hlen, mousedowns_snoc.
      destruct c; simpl; lia.
    + intros h Hh. apply in_or_app. right. now apply Hin.
Qed.

Lemma mouseup_listeners_accumulate_witness :
  listeners_inv new_World
  /\ enabled (knob new_World) = true
  /\ List.length
       (registered mouseup
          (run [CallMouseDown; CallMouseUp; CallMouseUp; CallTouchStart;
                CallTouchEnd; CallMouseDown; CallMouseUp] new_World)) = 2%nat.
Proof.
  split; [exact new_World_inv|]. split; [reflexivity|].
  exact (proj1 (proj2
    (mouseup_listeners_accumulate
       [CallMouseDown; CallMouseUp; CallMouseUp; CallTouchStart;
        CallTouchEnd; CallMouseDown; CallMouseUp]
       new_World new_World_inv eq_refl))).
Defined.

(** * Change events and the stored value *)

Lemma last_emitted_app (a b : list Effect) :
  last_emitted (a ++ b) =
  match last_emitted b with
  | Some v => Some v
  | None => last_emitted a
  end.
Proof.
  induction a as [|e a IH]; simpl.
  - now destruct (last_emitted b).
  - rewrite IH. now destruct (last_emitted b).
Qed.

Lemma last_emitted_notify (w : World) :
  last_emitted (trace (notify w)) = Some (value (knob (notify w))).
Proof.
  unfold notify, emit. simpl. now rewrite last_emitted_app.
Qed.

Lemma last_emitted_prevent (tr : list Effect) :
  last_emitted (tr ++ [PreventDefault]) = last_emitted tr.
Proof.
  now rewrite last_emitted_app.
Qed.

Lemma onChange_events_app (a b : list Effect) :
  onChange_events (a ++ b) = onChange_events a ++ onChange_events b.
Proof. apply filter_app. Qed.

Lemma onChange_events_prevent (tr : list Effect) :
  onChange_events (tr ++ [PreventDefault]) = onChange_events tr.
Proof.
  rewrite onChange_events_app. simpl. apply app_nil_r.
Qed.

Lemma quiet_refl (w : World) : quiet w w.
Proof. repeat split. Qed.

Lemma quiet_prevent (w w' : World) :
  quiet w w' -> quiet w (emit PreventDefault w').
Proof.
  intros (Hv & He & Hl). unfold quiet, emit. simpl.
  rewrite onChange_events_prevent, last_emitted_prevent. auto.
Qed.

Lemma updateValue_quiet_or_synced (x y : R) (w : World) :
  quiet w (updateValue x y w)
  \/ last_emitted (trace (updateValue x y w)) =
     Some (value (knob (updateValue x y w))).
Proof.
  unfold updateValue, updateModel.
  destruct (mappedValue _ start_angle (knob w)).
  - right. apply last_emitted_notify.
  - left. apply quiet_refl.
Qed.

Lemma call_quiet_or_synced (c : Call) (w : World) :
  is_input c = true ->
  quiet w (call c w)
  \/ last_emitted (trace (call c w)) = Some (value (knob (call c w))).
Proof.
  intros Hc.
  destruct c as [x y|code| | |x y| | |rect event|v]; simpl in *;
    try discriminate.
  - unfold onClick. destruct (enabled (knob w)); [|left; apply quiet_refl].
    apply updateValue_quiet_or_synced.
  - unfold onKeyDown.
    repeat match goal with
           | |- context [if ?b then _ else _] => destruct b
           end;
      try (left; apply quiet_refl);
      right; unfold updateModelValue; apply last_emitted_notify.
  - left. unfold onMouseDown.
    destruct (enabled (knob w)); [|apply quiet_refl].
    apply (quiet_prevent w _). repeat split.
  - left. unfold onMouseUp.
    destruct (enabled (knob w)); [|apply quiet_refl].
    destruct (windowMouseMoveListener (knob w)); cbn;
      destruct (windowMouseUpListener (knob w));
      apply (quiet_prevent w _); repeat split.
  - unfold onMouseMove.
    destruct (enabled (knob w)); [|left; apply quiet_refl].
    destruct (updateValue_quiet_or_synced x y w) as [Hq|Hs].
    + left. now apply quiet_prevent.
    + right.
      change (trace (emit PreventDefault (updateValue x y w)))
        with (trace (updateValue x y w) ++ [PreventDefault]).
      rewrite last_emitted_prevent. exact Hs.
  - left. unfold onTouchStart.
    destruct (enabled (knob w)); [|apply quiet_refl].
    apply (quiet_prevent w _). repeat split.
  - left. unfold onTouchEnd.
    destruct (enabled (knob w)); [|apply quiet_refl].
    destruct (windowTouchMoveListener (knob w)); cbn;
      destruct (windowTouchEndListener (knob w));
      apply (quiet_prevent w _); repeat split.
  - unfold onTouchMove.
    destruct (enabled (knob w)); [|left; apply quiet_refl].
    destruct event as [touches [|touch rest]|];
      try (left; apply quiet_refl).
    + destruct (Nat.eqb (List.length touches) 1); left; apply quiet_refl.
    + destruct (Nat.eqb (List.length touches) 1);
        [|left; apply quiet_refl].
      apply updateValue_quiet_or_synced.
Qed.

(** X5: after any sequence of calls of the click, key, mouse and touch
    handlers, either the stored value is what it was before and the
    [onChange] events of the trace are those from before (none was
    emitted in between), or the latest [onChange] event carries the value
    that is stored now: the value never changes behind the back of the
    subscribers. *)
Theorem input_keeps_subscribers_in_sync (cs : list Call) (w : World)
    (Hin : forallb is_input cs = true) :
  (value (knob (run cs w)) = value (knob w)
   /\ onChange_events (trace (run cs w)) = onChange_events (trace w))
  \/ last_emitted (trace (run cs w)) = Some (value (knob (run cs w))).
Proof.
  assert (H : quiet w (run cs w)
              \/ last_emitted (trace (run cs w)) =
                 Some (value (knob (run cs w)))).
  { induction cs as [|c cs IH] using rev_ind.
    - left. apply quiet_refl.
    - rewrite forallb_app in Hin. apply andb_prop in Hin.
      destruct Hin as [Hcs Hc]. simpl in Hc. rewrite andb_true_r in Hc.
      specialize (IH Hcs). rewrite run_snoc.
      destruct (call_quiet_or_synced c (run cs w) Hc)
        as [(Hv & He & Hl)|Hs]; [|right; exact Hs].
      destruct IH as [(Hv' & He' & Hl')|Hs'].
      + left. unfold quiet. rewrite Hv, He, Hl. auto.
      + right. rewrite Hl, Hv. exact Hs'. }
  destruct H as [(Hv & He & _)|Hs]; [left; now split | right; exact Hs].
Qed.

Lemma input_keeps_subscribers_in_sync_witness :
  let cs := [CallMouseDown; CallMouseMove 50 50; CallMouseUp;
             CallKeyDown "PageUp"] in
  forallb is_input cs = true
  /\ ((value (knob (run cs new_World)) = value (knob new_World)
       /\ onChange_events (trace (run cs new_World)) =
          onChange_events (trace new_World))
      \/ last_emitted (trace (run cs new_World)) =
         Some (value (knob (run cs new_World)))).
Proof.
  cbv zeta. split; [reflexivity|].
  exact (input_keeps_subscribers_in_sync
           [CallMouseDown; CallMouseMove 50 50; CallMouseUp;
            CallKeyDown "PageUp"] new_World eq_refl).
Defined.

(** * Keys *)

Lemma handled_key_false (code : string) :
  handled_key code = false ->
  (String.eqb code "ArrowRight" || String.eqb code "ArrowUp")%bool = false
  /\ (String.eqb code "ArrowLeft" || String.eqb code "ArrowDown")%bool = false
  /\ String.eqb code "Home" = false
  /\ String.eqb code "End" = false
  /\ String.eqb code "PageUp" = false
  /\ String.eqb code "PageDown" = false.
Proof.
  unfold handled_key. intros H.
  repeat (apply orb_false_elim in H; let H' := fresh "E" in destruct H as [H H']).
  rewrite H, E, E0, E1, E2, E3, E4, E5. repeat split.
Qed.

(** X6: a key that is none of the four arrows, Home, End, PageUp and
    PageDown is ignored: the value, the effects (no [preventDefault]) and
    everything else stay as they are. *)
Theorem unhandled_key_is_ignored (code : string) (w : World)
    (Hk : handled_key code = false) :
  onKeyDown code w = w.
Proof.
  destruct (handled_key_false code Hk) as (E1 & E2 & E3 & E4 & E5 & E6).
  unfold onKeyDown. rewrite E1, E2, E3, E4, E5, E6.
  now destruct (enabled (knob w)).
Qed.

Lemma unhandled_key_is_ignored_witness :
  handled_key "Enter" = false /\ onKeyDown "Enter" new_World = new_World.
Proof.
  split; [reflexivity|].
  exact (unhandled_key_is_ignored "Enter" new_World eq_refl).
Defined.

Lemma updateModelValue_effects (x : R) (w : World) :
  min (knob w) <= max (knob w) ->
  exists v : R,
    value (knob (updateModelValue x (emit PreventDefault w))) = Some v
    /\ min (knob w) <= v <= max (knob w)
    /\ trace (updateModelValue x (emit PreventDefault w)) =
       trace w ++ [PreventDefault; WriteModelValue (Some v);
                   OnModelChange (Some v); OnChangeEmit (Some v)]
    /\ listener_state (updateModelValue x (emit PreventDefault w)) =
       listener_state w.
Proof.
  intros Hr. exists (clamp x (knob w)).
  split; [reflexivity|]. split; [now apply clamp_in_range|].
  split; [|reflexivity].
  unfold updateModelValue, notify, emit. simpl.
  now rewrite <- !app_assoc.
Qed.

(** X7: on a control that is neither disabled nor read-only and has
    [min <= max], each of the eight handled keys stores a value between
    [min] and [max], suppresses the default action and notifies the new
    value, in this order: [preventDefault], [writeModelValue], the
    model-change callback, the [onChange] event; the listeners and their
    handles are not touched. *)
Theorem handled_key_effects (code : string) (w : World)
    (He : enabled (knob w) = true)
    (Hk : handled_key code = true)
    (Hr : min (knob w) <= max (knob w)) :
  exists v : R,
    value (knob (onKeyDown code w)) = Some v
    /\ min (knob w) <= v <= max (knob w)
    /\ trace (onKeyDown code w) =
       trace w ++ [PreventDefault; WriteModelValue (Some v);
                   OnModelChange (Some v); OnChangeEmit (Some v)]
    /\ listener_state (onKeyDown code w) = listener_state w.
Proof.
  unfold onKeyDown. rewrite He.
  destruct (String.eqb code "ArrowRight" || String.eqb code "ArrowUp")%bool
    eqn:E1; [now apply updateModelValue_effects|].
  destruct (String.eqb code "ArrowLeft" || String.eqb code "ArrowDown")%bool
    eqn:E2; [now apply updateModelValue_effects|].
  destruct (String.eqb code "Home") eqn:E3;
    [now apply updateModelValue_effects|].
  destruct (String.eqb code "End") eqn:E4;
    [now apply updateModelValue_effects|].
  destruct (String.eqb code "PageUp") eqn:E5;
    [now apply updateModelValue_effects|].
  destruct (String.eqb code "PageDown") eqn:E6;
    [now apply updateModelValue_effects|].
  exfalso. unfold handled_key in Hk.
  apply orb_false_elim in E1. destruct E1 as [Er Eu].
  apply orb_false_elim in E2. destruct E2 as [El Ed].
  rewrite Er, Eu, El, Ed, E3, E4, E5, E6 in Hk. discriminate.
Qed.

Lemma handled_key_effects_witness :
  enabled (knob new_World) = true
  /\ handled_key "PageUp" = true
  /\ min (knob new_World) <= max (knob new_World)
  /\ exists v : R,
       value (knob (onKeyDown "PageUp" new_World)) = Some v
       /\ 0 <= v <= 100.
Proof.
  assert (Hr : min (knob new_World) <= max (knob new_World)) by (simpl; lra).
  split; [reflexivity|]. split; [reflexivity|]. split; [exact Hr|].
  destruct (handled_key_effects "PageUp" new_World eq_refl eq_refl Hr)
    as [v [Hv [Hb _]]].
  exists v. split; [exact Hv | exact Hb].
Defined.

Lemma clamp_inside (x : R) (k : Knob) :
  min k <= x <= max k -> clamp x k = x.
Proof.
  intros [H1 H2]. unfold clamp.
  destruct (Rgt_dec x (max k)); [lra|].
  destruct (Rlt_dec x (min k)); [lra | reflexivity].
Qed.

(** X8: on a whole-number value (of magnitude below 2^53, where adding
    and subtracting one is exact) ArrowDown undoes ArrowUp and ArrowUp
    undoes ArrowDown as long as the step stays inside the range (likewise
    ArrowLeft and ArrowRight); at [max] ArrowUp, and at [min] ArrowDown,
    leaves the value where it is. *)
Theorem arrow_keys_step_back (n : Z) (w : World)
    (He : enabled (knob w) = true)
    (Hn : _value (knob w) = IZR n)
    (Hb : (Z.abs n < 2 ^ 53)%Z)
    (Hv : min (knob w) <= IZR n <= max (knob w)) :
  let k := knob w in
  (IZR n + 1 <= max k ->
     value (knob (onKeyDown "ArrowDown" (onKeyDown "ArrowUp" w))) =
       Some (IZR n)
     /\ value (knob (onKeyDown "ArrowLeft" (onKeyDown "ArrowRight" w))) =
       Some (IZR n))
  /\ (min k <= IZR n - 1 ->
     value (knob (onKeyDown "ArrowUp" (onKeyDown "ArrowDown" w))) =
       Some (IZR n)
     /\ value (knob (onKeyDown "ArrowRight" (onKeyDown "ArrowLeft" w))) =
       Some (IZR n))
  /\ (IZR n = max k ->
      value (knob (onKeyDown "ArrowUp" w)) = Some (max k))
  /\ (IZR n = min k ->
      value (knob (onKeyDown "ArrowDown" w)) = Some (min k)).
Proof.
  cbv zeta.
  assert (Hup : forall code, code = "ArrowUp"%string \/ code = "ArrowRight"%string ->
            forall w', enabled (knob w') = true ->
            onKeyDown code w' =
            updateModelValue (_value (knob w') + 1) (emit PreventDefault w')).
  { intros code [-> | ->] w' He'; unfold onKeyDown; now rewrite He'. }
  assert (Hdn : forall code, code = "ArrowDown"%string \/ code = "ArrowLeft"%string ->
            forall w', enabled (knob w') = true ->
            onKeyDown code w' =
            updateModelValue (_value (knob w') - 1) (emit PreventDefault w')).
  { intros code [-> | ->] w' He'; unfold onKeyDown; now rewrite He'. }
  repeat split.
  - rewrite (Hup "ArrowUp"%string) by auto.
    rewrite (Hdn "ArrowDown"%string) by auto.
    simpl. f_equal. unfold _value at 1. simpl. rewrite Hn.
    rewrite (clamp_inside (IZR n + 1) (knob w)) by lra.
    rewrite clamp_inside by (simpl; lra). lra.
  - rewrite (Hup "ArrowRight"%string) by auto.
    rewrite (Hdn "ArrowLeft"%string) by auto.
    simpl. f_equal. unfold _value at 1. simpl. rewrite Hn.
    rewrite (clamp_inside (IZR n + 1) (knob w)) by lra.
    rewrite clamp_inside by (simpl; lra). lra.
  - rewrite (Hdn "ArrowDown"%string) by auto.
    rewrite (Hup "ArrowUp"%string) by auto.
    simpl. f_equal. unfold _value at 1. simpl. rewrite Hn.
    rewrite (clamp_inside (IZR n - 1) (knob w)) by lra.
    rewrite clamp_inside by (simpl; lra). lra.
  - rewrite (Hdn "ArrowLeft"%string) by auto.
    rewrite (Hup "ArrowRight"%string) by auto.
    simpl. f_equal. unfold _value at 1. simpl. rewrite Hn.
    rewrite (clamp_inside (IZR n - 1) (knob w)) by lra.
    rewrite clamp_inside by (simpl; lra). lra.
  - intros E. rewrite (Hup "ArrowUp"%string) by auto.
    simpl. f_equal. rewrite Hn, E. unfold clamp.
    destruct (Rgt_dec (max (knob w) + 1) (max (knob w))); [reflexivity | lra].
  - intros E. rewrite (Hdn "ArrowDown"%string) by auto.
    simpl. f_equal. rewrite Hn, E. unfold clamp.
    destruct (Rgt_dec (min (knob w) - 1) (max (knob w))); [lra|].
    destruct (Rlt_dec (min (knob w) - 1) (min (knob w))); [reflexivity | lra].
Qed.

Lemma arrow_keys_step_back_witness :
  enabled (knob new_World) = true
  /\ _value (knob new_World) = 0
  /\ (Z.abs 0 < 2 ^ 53)%Z
  /\ min (knob new_World) <= 0 <= max (knob new_World)
  /\ value (knob (onKeyDown "ArrowDown" (onKeyDown "ArrowUp" new_World))) =
     Some 0.
Proof.
  assert (Hb : (Z.abs 0 < 2 ^ 53)%Z) by reflexivity.
  assert (Hv : min (knob new_World) <= 0 <= max (knob new_World))
    by (simpl; lra).
  assert (H1 : 0 + 1 <= max (knob new_World)) by (simpl; lra).
  split; [reflexivity|]. split; [reflexivity|].
  split; [exact Hb|]. split; [exact Hv|].
  exact (proj1 (proj1 (arrow_keys_step_back 0 new_World eq_refl eq_refl Hb Hv)
                  H1)).
Defined.

(** * Pointer events *)

(** X10: on a control with [min < max] and [0 < step] the value that a
    pointer event stores lies on the step grid that starts at [min]: it is
    [min + n * step] for a natural number [n]. *)
Theorem pointer_value_on_grid (offsetX offsetY : R) (w : World)
    (Hr : min (knob w) < max (knob w))
    (Hs : 0 < step (knob w)) :
  updateValue offsetX offsetY w = w
  \/ exists n : nat,
       value (knob (updateValue offsetX offsetY w)) =
       Some (min (knob w) + INR n * step (knob w)).
Proof.
  unfold updateValue.
  set (angle := Math_atan2 _ _).
  pose proof (Math_atan2_range (size (knob w) / 2 - offsetY)
                (offsetX - size (knob w) / 2)) as Hrange.
  fold angle in Hrange.
  unfold updateModel.
  destruct (mappedValue angle start_angle (knob w)) as [m|] eqn:Hm.
  - right.
    pose proof (mappedValue_within (knob w) Hr angle m Hrange Hm) as [H1 H2].
    assert (Hx : 0 <= (m - min (knob w)) / step (knob w)).
    { apply Rlt_le, Rdiv_lt_0_compat; lra. }
    pose proof (Math_round_nonneg _ Hx) as Hn.
    unfold Math_round in Hn. apply le_IZR in Hn.
    exists (Z.to_nat (Int_part ((m - min (knob w)) / step (knob w) + / 2))).
    simpl. f_equal. unfold roundToStep, Math_round.
    rewrite INR_IZR_INZ, Z2Nat.id by exact Hn. lra.
  - left. reflexivity.
Qed.

Lemma pointer_value_on_grid_witness :
  min (knob new_World) < max (knob new_World)
  /\ 0 < step (knob new_World)
  /\ (updateValue 90 50 new_World = new_World
      \/ exists n : nat,
           value (knob (updateValue 90 50 new_World)) =
           Some (min (knob new_World) + INR n * step (knob new_World))).
Proof.
  assert (Hr : min (knob new_World) < max (knob new_World)) by (simpl; lra).
  assert (Hs : 0 < step (knob new_World)) by (simpl; lra).
  split; [exact Hr|]. split; [exact Hs|].
  exact (pointer_value_on_grid 90 50 new_World Hr Hs).
Defined.

Lemma updateValue_knob (x y : R) (w : World) :
  knob (updateValue x y w) =
  match mappedValue
          (Math_atan2 (size (knob w) / 2 - y) (x - size (knob w) / 2))
          start_angle (knob w) with
  | Some m => set_value (Some (roundToStep m (knob w))) (knob w)
  | None => knob w
  end.
Proof.
  unfold updateValue, updateModel.
  destruct (mappedValue _ start_angle (knob w)); reflexivity.
Qed.

(** X11: the value that a click stores depends on the point and on the
    configuration, not on the value stored before: with a step other than
    zero, a second click on the same point leaves the component as the
    first one left it. *)
Theorem click_twice (offsetX offsetY : R) (w : World)
    (Hs : step (knob w) <> 0) :
  knob (onClick offsetX offsetY (onClick offsetX offsetY w)) =
  knob (onClick offsetX offsetY w).
Proof.
  unfold onClick. destruct (enabled (knob w)) eqn:He.
  - assert (He' : enabled (knob (updateValue offsetX offsetY w)) = true).
    { pose proof (updateValue_frame offsetX offsetY w) as [Hc _].
      unfold configuration in Hc. injection Hc as _ _ _ _ _ Hro Hdis.
      unfold enabled in *. now rewrite Hro, Hdis. }
    rewrite He'.
    rewrite (updateValue_knob offsetX offsetY (updateValue offsetX offsetY w)).
    rewrite (updateValue_knob offsetX offsetY w).
    destruct (mappedValue
                (Math_atan2 (size (knob w) / 2 - offsetY)
                   (offsetX - size (knob w) / 2))
                start_angle (knob w)) as [m|] eqn:Hm.
    + simpl. unfold mappedValue in *. simpl. rewrite Hm. reflexivity.
    + now rewrite Hm.
  - now rewrite He.
Qed.

Lemma click_twice_witness :
  step (knob new_World) <> 0
  /\ knob (onClick 50 10 (onClick 50 10 new_World)) =
     knob (onClick 50 10 new_World).
Proof.
  assert (Hs : step (knob new_World) <> 0) by (simpl; lra).
  split; [exact Hs|].
  exact (click_twice 50 10 new_World Hs).
Defined.

Lemma Math_atan2_west (x : R) : x < 0 -> Math_atan2 0 x = PI.
Proof.
  intros Hx. rewrite Math_atan2_upper_left by lra.
  replace (0 / x) with 0 by (field; lra).
  rewrite atan_0. lra.
Qed.

(** X12: clicks on the two axes through the centre of the control depend
    on the direction only, not on the distance from the centre nor on
    [size].  A click straight above the centre does what [updateModel]
    does with the angle [PI / 2], a click straight to the right of it
    what [updateModel] does with the angle [0], a click straight to the
    left what it does with the angle [PI]; a click straight below the
    centre is ignored. *)
Theorem clicks_on_the_axes (w : World)
    (He : enabled (knob w) = true) :
  let c := size (knob w) / 2 in
  (forall y : R, y < c -> onClick c y w = updateModel (PI / 2) start_angle w)
  /\ (forall x : R, c < x -> onClick x c w = updateModel 0 start_angle w)
  /\ (forall x : R, x < c -> onClick x c w = updateModel PI start_angle w)
  /\ (forall y : R, c < y -> onClick c y w = w).
Proof.
  cbv zeta. pose proof PI_RGT_0 as HPI. unfold onClick. rewrite He.
  unfold updateValue.
  replace (size (knob w) / 2 - size (knob w) / 2) with 0 by lra.
  repeat split.
  - intros y Hy. now rewrite Math_atan2_north by lra.
  - intros x Hx. now rewrite Math_atan2_east by lra.
  - intros x Hx. now rewrite Math_atan2_west by lra.
  - intros y Hy. rewrite Math_atan2_south by lra.
    unfold updateModel. rewrite mappedValue_gap; [reflexivity|].
    unfold start_angle, maxRadians. lra.
Qed.

Lemma clicks_on_the_axes_witness :
  enabled (knob new_World) = true
  /\ onClick (size new_Knob / 2) 10 new_World =
     updateModel (PI / 2) start_angle new_World.
Proof.
  split; [reflexivity|].
  refine (proj1 (clicks_on_the_axes new_World eq_refl) 10 _).
  simpl. lra.
Defined.

(** X13: [onTouchMove] ignores an event that is no touch event and an
    event with no or several touches; with one touch it does what a
    click at the position of the first target touch relative to the
    bounding rectangle does, and nothing when there is no target touch. *)
Theorem touch_move_is_relative (rect : DOMRect) (w : World) :
  onTouchMove rect OtherEvent w = w
  /\ (forall touches targets : list Touch,
        List.length touches <> 1%nat ->
        onTouchMove rect (TouchEvent touches targets) w = w)
  /\ (forall t0 : Touch, onTouchMove rect (TouchEvent [t0] []) w = w)
  /\ (forall (t0 t : Touch) (rest : list Touch),
        onTouchMove rect (TouchEvent [t0] (t :: rest)) w =
        onClick (clientX t - rect_left rect) (clientY t - rect_top rect) w).
Proof.
  split; [|split; [|split]].
  - unfold onTouchMove. now destruct (enabled (knob w)).
  - intros touches targets Hn. unfold onTouchMove.
    destruct (enabled (knob w)); [|reflexivity].
    destruct (Nat.eqb_spec (List.length touches) 1); [contradiction|].
    reflexivity.
  - intros t0. unfold onTouchMove. now destruct (enabled (knob w)).
  - intros t0 t rest. unfold onTouchMove, onClick. simpl.
    now destruct (enabled (knob w)).
Qed.

(** * The arc *)

(** X15: with [min < max] the angle of the value is [minRadians] at
    [min], and also when the control has no value; it does not grow when
    the value grows, so that it stays at or below [minRadians] for every
    value from [min] on. *)
Theorem valueRadians_runs_down (k : Knob)
    (Hr : min k < max k) :
  valueRadians (set_value (Some (min k)) k) = minRadians
  /\ valueRadians (set_value None k) = minRadians
  /\ (forall v1 v2 : R, v1 <= v2 ->
        valueRadians (set_value (Some v2) k)
        <= valueRadians (set_value (Some v1) k))
  /\ (forall v : R, min k <= v ->
        valueRadians (set_value (Some v) k) <= minRadians).
Proof.
  pose proof PI_RGT_0 as HPI.
  assert (Hd : 0 < / (max k - min k)) by (apply Rinv_0_lt_compat; lra).
  split; [|split; [|split]].
  - rewrite valueRadians_fraction by exact Hr.
    unfold minRadians. field. lra.
  - unfold valueRadians, _value, mapRange. simpl. field. lra.
  - intros v1 v2 Hv. rewrite !valueRadians_fraction by exact Hr.
    assert ((v1 - min k) / (max k - min k) <= (v2 - min k) / (max k - min k)).
    { unfold Rdiv. apply Rmult_le_compat_r; lra. }
    nra.
  - intros v Hv. rewrite valueRadians_fraction by exact Hr.
    unfold minRadians.
    assert (0 <= (v - min k) / (max k - min k)).
    { unfold Rdiv. apply Rmult_le_pos; lra. }
    nra.
Qed.

Lemma valueRadians_runs_down_witness :
  min new_Knob < max new_Knob
  /\ valueRadians (set_value (Some 0) new_Knob) = minRadians.
Proof.
  assert (Hr : min new_Knob < max new_Knob) by (simpl; lra).
  split; [exact Hr|].
  exact (proj1 (valueRadians_runs_down new_Knob Hr)).
Defined.

Lemma zeroRadians_zeroValue (k : Knob) :
  zeroRadians k = mapRange (zeroValue k) (min k) (max k) minRadians maxRadians.
Proof.
  unfold zeroRadians, zeroValue.
  destruct (Rgt_dec (min k) 0); [|reflexivity].
  destruct (Rgt_dec (max k) 0); reflexivity.
Qed.

(** The angle between the reference point and the value. *)
Lemma arc_angle (k : Knob) :
  min k < max k ->
  zeroRadians k - valueRadians k =
  (_value k - zeroValue k) / (max k - min k) * (5 / 3 * PI).
Proof.
  intros Hr. rewrite zeroRadians_zeroValue.
  unfold valueRadians, mapRange, minRadians, maxRadians.
  field. lra.
Qed.

(** X16: the two flags of the value arc at and above the reference value
    ([min] for a positive range, 0 otherwise).  With [min < max], [sweep]
    is 1 whenever the value is not below the reference value; at the
    reference value [largeArc] is 0; and at [max], for a [min] that is
    not negative, [largeArc] is 1. *)
Theorem arc_flags (k : Knob)
    (Hr : min k < max k) :
  (zeroValue k <= _value k -> sweep k = 1%nat)
  /\ (_value k = zeroValue k -> largeArc k = 0%nat)
  /\ (0 <= min k -> _value k = max k -> largeArc k = 1%nat).
Proof.
  pose proof PI_RGT_0 as HPI.
  pose proof (arc_angle k Hr) as Ha.
  assert (Hd : 0 < / (max k - min k)) by (apply Rinv_0_lt_compat; lra).
  split; [|split].
  - intros Hv. unfold sweep.
    destruct (Rgt_dec (valueRadians k) (zeroRadians k)) as [G|G];
      [|reflexivity].
    exfalso.
    assert (0 <= (_value k - zeroValue k) / (max k - min k)).
    { unfold Rdiv. apply Rmult_le_pos; lra. }
    nra.
  - intros Hv. unfold largeArc. rewrite Ha, Hv.
    replace ((zeroValue k - zeroValue k) / (max k - min k) * (5 / 3 * PI))
      with 0 by (field; lra).
    rewrite Rabs_R0.
    destruct (Rlt_dec 0 PI); [reflexivity | lra].
  - intros Hm Hv. unfold largeArc. rewrite Ha, Hv.
    assert (Hz : zeroValue k = min k).
    { unfold zeroValue.
      destruct (Rgt_dec (min k) 0); [|lra].
      destruct (Rgt_dec (max k) 0); [reflexivity | lra]. }
    rewrite Hz.
    replace ((max k - min k) / (max k - min k) * (5 / 3 * PI))
      with (5 / 3 * PI) by (field; lra).
    rewrite Rabs_pos_eq by lra.
    destruct (Rlt_dec (5 / 3 * PI) PI); [lra | reflexivity].
Qed.

Lemma arc_flags_witness :
  let k := set_value (Some 100) new_Knob in
  min k < max k /\ largeArc k = 1%nat /\ sweep k = 1%nat.
Proof.
  cbv zeta.
  assert (Hr : min (set_value (Some 100) new_Knob)
               < max (set_value (Some 100) new_Knob)) by (simpl; lra).
  assert (Hz : zeroValue (set_value (Some 100) new_Knob) = 0).
  { unfold zeroValue. simpl. destruct (Rgt_dec 0 0); [lra | reflexivity]. }
  split; [exact Hr|].
  destruct (arc_flags (set_value (Some 100) new_Knob) Hr) as (Hs & _ & Hl).
  split.
  - apply Hl; [simpl; lra | reflexivity].
  - apply Hs. rewrite Hz. unfold _value. simpl. lra.
Defined.

(** X18: where the value arc starts and when it is empty.  With
    [min < max]: for a positive [min] the value path starts at the start
    of the track, with the same move command as the range path; and when
    the value is the reference value the arc ends where it starts. *)
Theorem value_arc_start (toString : R -> string) (k : Knob)
    (Hr : min k < max k) :
  (0 < min k ->
     zeroX k = minX /\ zeroY k = minY
     /\ (exists rest : string,
           valuePath toString k =
           ("M " ++ toString minX ++ " " ++ toString minY ++ " A " ++ rest)%string)
     /\ (exists rest : string,
           rangePath toString =
           ("M " ++ toString minX ++ " " ++ toString minY ++ " A " ++ rest)%string))
  /\ (_value k = zeroValue k -> valueX k = zeroX k /\ valueY k = zeroY k).
Proof.
  split.
  - intros Hpos.
    assert (Hz : zeroRadians k = minRadians).
    { rewrite zeroRadians_zeroValue. unfold zeroValue.
      destruct (Rgt_dec (min k) 0); [|lra].
      destruct (Rgt_dec (max k) 0); [|lra].
      unfold mapRange. field. lra. }
    assert (Hx : zeroX k = minX) by (unfold zeroX, minX; now rewrite Hz).
    assert (Hy : zeroY k = minY) by (unfold zeroY, minY; now rewrite Hz).
    repeat split; trivial.
    + unfold valuePath. rewrite Hx, Hy. eexists. reflexivity.
    + unfold rangePath. eexists. reflexivity.
  - intros Hv.
    assert (Hz : valueRadians k = zeroRadians k).
    { rewrite zeroRadians_zeroValue. unfold valueRadians. now rewrite Hv. }
    unfold valueX, valueY, zeroX, zeroY. now rewrite Hz.
Qed.

Lemma value_arc_start_witness :
  let k := with_range 5 100 1 (set_value (Some 5) new_Knob) in
  min k < max k /\ zeroX k = minX /\ valueX k = zeroX k.
Proof.
  cbv zeta.
  assert (Hr : min (with_range 5 100 1 (set_value (Some 5) new_Knob))
               < max (with_range 5 100 1 (set_value (Some 5) new_Knob)))
    by (simpl; lra).
  assert (Hpos : 0 < min (with_range 5 100 1 (set_value (Some 5) new_Knob)))
    by (simpl; lra).
  assert (Hv : _value (with_range 5 100 1 (set_value (Some 5) new_Knob)) =
               zeroValue (with_range 5 100 1 (set_value (Some 5) new_Knob))).
  { unfold _value, zeroValue. simpl.
    destruct (Rgt_dec 5 0); [|lra]. destruct (Rgt_dec 100 0); [|lra].
    reflexivity. }
  destruct (value_arc_start (fun _ => "0"%string)
              (with_range 5 100 1 (set_value (Some 5) new_Knob)) Hr)
    as [Hstart Hempty].
  split; [exact Hr|]. split.
  - exact (proj1 (Hstart Hpos)).
  - exact (proj1 (Hempty Hv)).
Defined.

(** * More on gestures and on the round trip *)

(** X19: on a control that is neither disabled nor read-only, whose
    registrations are all older than the next one, [onMouseUp] after
    [onMouseDown] calls the unlisten function of the mousemove listener of
    the gesture, once, and no other: the mousemove listeners on the window
    are those from before the gesture, and the window is left with the
    mouseup listener of the gesture on top of what it held. *)
Theorem mouse_gesture_releases_mousemove (w : World)
    (He : enabled (knob w) = true)
    (Hf : fresh w) :
  let w' := onMouseUp (onMouseDown w) in
  windowListeners w' = (S (nextListener w), mouseup) :: windowListeners w
  /\ registered mousemove w' = registered mousemove w
  /\ unlistenCalls w' = nextListener w :: unlistenCalls w.
Proof.
  cbv zeta. rewrite (onMouseDown_enabled w He).
  unfold onMouseUp, enabled in *. cbn -[detach]. rewrite He.
  cbn -[detach].
  assert (Hback :
    detach (nextListener w)
      ((S (nextListener w), mouseup) :: (nextListener w, mousemove)
         :: windowListeners w) =
    (S (nextListener w), mouseup) :: windowListeners w).
  { rewrite (detach_other (nextListener w) (S (nextListener w))) by lia.
    rewrite detach_same.
    now rewrite (detach_fresh (nextListener w)) by exact Hf. }
  rewrite !registered_eq. cbn -[detach]. rewrite Hback.
  repeat split.
Qed.

Lemma mouse_gesture_releases_mousemove_witness :
  enabled (knob new_World) = true
  /\ fresh new_World
  /\ registered mousemove (onMouseUp (onMouseDown new_World)) = [].
Proof.
  assert (Hf : fresh new_World) by constructor.
  split; [reflexivity|]. split; [exact Hf|].
  exact (proj1 (proj2 (mouse_gesture_releases_mousemove new_World eq_refl Hf))).
Defined.






End Knob.
